(** * Video-scene service: the scene parser, the two generation routines,
      the HTTP handler and the two entry points of [app.py] and [crew.py].

    Python text is modelled by [string]; a character stands for the code
    point of the same number, so the development covers texts over
    U+0000..U+00FF, with Python's [str.isspace] and [str.lower] on that
    range.  Python values that cross a function boundary (dicts, lists,
    JSON bodies) live in [pyval]; a dict is an association list in
    insertion order, the order [json.dumps] prints; JSON numbers are
    integers.  Code that may raise runs in the [py] monad, whose exceptions
    are the instances of [Exception], the ones [except Exception] catches.
    What the program cannot decide by itself (the environment, the client
    library, the chat service) is a [world]. *)

From Stdlib Require Import String Ascii List Bool Arith ZArith.
From Stdlib Require Import DecimalString.
From Stdlib Require QArith.
Import ListNotations.

Local Open Scope string_scope.
Local Open Scope list_scope.

(** ** Python builtins on [str] *)

Module PyStr.

Definition nl : ascii := "010"%char.
Definition colon : ascii := ":"%char.
Definition comma : ascii := ","%char.

(** The one-character string holding a line break. *)
Definition nls : string := String nl EmptyString.

(** [str.isspace] on one code point below U+0100. *)
Definition is_space (c : ascii) : bool :=
  let n := nat_of_ascii c in
  (((9 <=? n) && (n <=? 13)) || ((28 <=? n) && (n <=? 32))
   || (n =? 133) || (n =? 160))%nat.

(** [str.lower] on one code point below U+0100. *)
Definition lower_char (c : ascii) : ascii :=
  let n := nat_of_ascii c in
  if (((65 <=? n) && (n <=? 90))
      || ((192 <=? n) && (n <=? 214))
      || ((216 <=? n) && (n <=? 222)))%nat
  then ascii_of_nat (n + 32) else c.

Fixpoint lower (s : string) : string :=
  match s with
  | EmptyString => EmptyString
  | String c s' => String (lower_char c) (lower s')
  end.

Fixpoint lstrip (s : string) : string :=
  match s with
  | EmptyString => EmptyString
  | String c s' => if is_space c then lstrip s' else s
  end.

Fixpoint rstrip (s : string) : string :=
  match s with
  | EmptyString => EmptyString
  | String c s' =>
      match rstrip s' with
      | EmptyString => if is_space c then EmptyString else String c EmptyString
      | r => String c r
      end
  end.

(** [s.strip()] *)
Definition strip (s : string) : string := rstrip (lstrip s).

(** Truth value of a [str]: non-empty. *)
Definition nonempty (s : string) : bool :=
  match s with EmptyString => false | String _ _ => true end.

(** [s.startswith(p)] *)
Definition startswith (s p : string) : bool := String.prefix p s.

(** [c in s] for a one-character [c]. *)
Fixpoint contains (c : ascii) (s : string) : bool :=
  match s with
  | EmptyString => false
  | String a s' => Ascii.eqb a c || contains c s'
  end.

(** [s.split(sep)] for a one-character separator: never the empty list. *)
Fixpoint split (sep : ascii) (s : string) : list string :=
  match s with
  | EmptyString => [EmptyString]
  | String c s' =>
      if Ascii.eqb c sep then EmptyString :: split sep s'
      else match split sep s' with
           | h :: t => String c h :: t
           | [] => [String c EmptyString]
           end
  end.

(** [s.split(sep, 1)]: at most one cut, at the first separator. *)
Fixpoint split1 (sep : ascii) (s : string) : list string :=
  match s with
  | EmptyString => [EmptyString]
  | String c s' =>
      if Ascii.eqb c sep then [EmptyString; s']
      else match split1 sep s' with
           | h :: t => String c h :: t
           | [] => [String c EmptyString]
           end
  end.

End PyStr.
Import PyStr.

(** ** Python values, exceptions and the [py] monad *)

#[warnings="-register-all"]
Inductive pyval : Type :=
| PNone
| PBool (b : bool)
| PInt (z : Z)
| PStr (s : string)
| PList (l : list pyval)
| PDict (d : list (string * pyval)).

Definition dict : Type := list (string * pyval).

Inductive exn_class : Type :=
| ValueError
| KeyError
| IndexError
| AttributeError
| OtherException (class_name : string) (value_error_subclass : bool).

(** An exception: its class and the text [str(e)]. *)
Record exn : Type := Exn { exn_cls : exn_class; exn_str : string }.

(** [isinstance(e, ValueError)], what [except ValueError] tests. *)
Definition is_ValueError (e : exn) : bool :=
  match exn_cls e with
  | ValueError => true
  | OtherException _ b => b
  | _ => false
  end.

Inductive py (A : Type) : Type :=
| Ret (a : A)
| Raise (e : exn).
Arguments Ret {A} a.
Arguments Raise {A} e.

Definition bind {A B : Type} (m : py A) (k : A -> py B) : py B :=
  match m with
  | Ret a => k a
  | Raise e => Raise e
  end.

Notation "x <- m ;; k" := (bind m (fun x => k))
  (at level 61, m at next level, right associativity).
Notation "' pat <- m ;; k" := (bind m (fun x => match x with pat => k end))
  (at level 61, pat pattern, m at next level, right associativity).

(** [try: body  except Exception as e: handler e] *)
Definition try_except {A : Type} (body : py A) (handler : exn -> py A) : py A :=
  match body with
  | Ret a => Ret a
  | Raise e => handler e
  end.

(** A [for] loop whose body may raise. *)
Fixpoint for_each {S A : Type} (body : S -> A -> py S) (st : S) (xs : list A)
  : py S :=
  match xs with
  | [] => Ret st
  | x :: xs' => st' <- body st x ;; for_each body st' xs'
  end.

(** Truth value of a Python value. *)
Definition truthy (v : pyval) : bool :=
  match v with
  | PNone => false
  | PBool b => b
  | PInt z => negb (Z.eqb z 0)
  | PStr s => nonempty s
  | PList l => match l with [] => false | _ => true end
  | PDict d => match d with [] => false | _ => true end
  end.

Definition truthy_dict (d : dict) : bool := truthy (PDict d).

Definition quote (s : string) : string := "'" ++ s ++ "'".

(** [d.get(k)] as an option. *)
Fixpoint dict_lookup (d : dict) (k : string) : option pyval :=
  match d with
  | [] => None
  | (k', v) :: d' => if String.eqb k' k then Some v else dict_lookup d' k
  end.

(** [d[k]]: raises [KeyError] on a missing key. *)
Definition getitem (d : dict) (k : string) : py pyval :=
  match dict_lookup d k with
  | Some v => Ret v
  | None => Raise (Exn KeyError (quote k))
  end.

(** [d[k] = v]: overwrites in place, or appends a new key. *)
Fixpoint setitem (d : dict) (k : string) (v : pyval) : dict :=
  match d with
  | [] => [(k, v)]
  | (k', v') :: d' =>
      if String.eqb k' k then (k', v) :: d' else (k', v') :: setitem d' k v
  end.

(** [a, b = l] *)
Definition unpack2 (l : list string) : py (string * string) :=
  match l with
  | [a; b] => Ret (a, b)
  | [] => Raise (Exn ValueError "not enough values to unpack (expected 2, got 0)")
  | [_] => Raise (Exn ValueError "not enough values to unpack (expected 2, got 1)")
  | _ => Raise (Exn ValueError "too many values to unpack (expected 2)")
  end.

(** ** [json.dumps] *)

Module Json.

Definition dquote : ascii := "034"%char.
Definition backslash : ascii := "092"%char.

Definition hex_digit (n : nat) : ascii :=
  nth n ["0"; "1"; "2"; "3"; "4"; "5"; "6"; "7";
         "8"; "9"; "a"; "b"; "c"; "d"; "e"; "f"]%char "0"%char.

(** One character of a JSON string under [ensure_ascii=True]. *)
Definition escape_char (c : ascii) : string :=
  let n := nat_of_ascii c in
  if Ascii.eqb c dquote then String backslash (String dquote EmptyString)
  else if Ascii.eqb c backslash then String backslash (String backslash EmptyString)
  else if (n =? 8)%nat then String backslash "b"
  else if (n =? 9)%nat then String backslash "t"
  else if (n =? 10)%nat then String backslash "n"
  else if (n =? 12)%nat then String backslash "f"
  else if (n =? 13)%nat then String backslash "r"
  else if ((n <? 32) || (126 <? n))%nat then
    String backslash
      (String "u" (String "0" (String "0"
        (String (hex_digit (n / 16)) (String (hex_digit (n mod 16)) EmptyString)))))
  else String c EmptyString.

Fixpoint escape (s : string) : string :=
  match s with
  | EmptyString => EmptyString
  | String c s' => escape_char c ++ escape s'
  end.

Definition encode_str (s : string) : string :=
  String dquote (escape s ++ String dquote EmptyString).

Fixpoint spaces (n : nat) : string :=
  match n with
  | O => EmptyString
  | S n' => String " " (spaces n')
  end.

(** The line break and indentation before an item at nesting [level]. *)
Definition newline_indent (indent : option nat) (level : nat) : string :=
  match indent with
  | None => EmptyString
  | Some n => String nl (spaces (n * level))
  end.

Definition item_separator (indent : option nat) (level : nat) : string :=
  match indent with
  | None => ", "
  | Some _ => "," ++ newline_indent indent level
  end.

Fixpoint encode (indent : option nat) (level : nat) (v : pyval) : string :=
  match v with
  | PNone => "null"
  | PBool true => "true"
  | PBool false => "false"
  | PInt z => NilZero.string_of_int (Z.to_int z)
  | PStr s => encode_str s
  | PList [] => "[]"
  | PList l =>
      "[" ++ newline_indent indent (S level)
      ++ String.concat (item_separator indent (S level))
           (map (encode indent (S level)) l)
      ++ newline_indent indent level ++ "]"
  | PDict [] => "{}"
  | PDict d =>
      "{" ++ newline_indent indent (S level)
      ++ String.concat (item_separator indent (S level))
           (map (fun kv => let '(k, x) := kv in
                           (encode_str k ++ ": " ++ encode indent (S level) x)%string)
              d)
      ++ newline_indent indent level ++ "}"
  end.

(** [json.dumps(v, indent=indent)] *)
Definition dumps (indent : option nat) (v : pyval) : string :=
  encode indent 0 v.

End Json.

(** ** The world outside the program *)

(** An f-string: literal text and interpolated values.  [FmtMethod v name]
    is the interpolation of the bound method [v.name] itself (not of a call),
    which Python prints with the address of [v]. *)
Inductive fragment : Type :=
| Lit (s : string)
| Fmt (v : pyval)
| FmtMethod (v : pyval) (name : string).

Record chat_request : Type := ChatRequest {
  model : string;
  messages : list (string * list fragment);
  max_tokens : nat;
  temperature : QArith_base.Q
}.

(** A chat completion: the [message.content] of each choice, [None] when the
    service sent no text. *)
Record completion : Type := Completion { choices : list (option string) }.

(** [getenv] is [os.getenv] after [load_dotenv()]; [openai_init] is the
    exception [OpenAI(api_key=...)] raises, if any; [chat_create] is
    [client.chat.completions.create(...)], called once by each routine. *)
Record world : Type := World {
  getenv : string -> option string;
  openai_init : option string -> option exn;
  chat_create : chat_request -> py completion
}.

(** [l[0]] *)
Definition first_item {A : Type} (l : list A) : py A :=
  match l with
  | x :: _ => Ret x
  | [] => Raise (Exn IndexError "list index out of range")
  end.

(** [content.strip()] where [content] may be [None]. *)
Definition content_strip (content : option string) : py string :=
  match content with
  | Some s => Ret (strip s)
  | None => Raise (Exn AttributeError "'NoneType' object has no attribute 'strip'")
  end.

Definition type_name (v : pyval) : string :=
  match v with
  | PNone => "NoneType"
  | PBool _ => "bool"
  | PInt _ => "int"
  | PStr _ => "str"
  | PList _ => "list"
  | PDict _ => "dict"
  end.

(** [v.get(k)]: only a dict has the method. *)
Definition method_get (v : pyval) (k : string) : py pyval :=
  match v with
  | PDict d => Ret (match dict_lookup d k with Some x => x | None => PNone end)
  | _ => Raise (Exn AttributeError
                  (quote (type_name v) ++ " object has no attribute 'get'"))
  end.

(** [v == s] for a string literal [s]. *)
Definition eq_str (v : pyval) (s : string) : bool :=
  match v with
  | PStr x => String.eqb x s
  | _ => false
  end.

Definition truthy_env (v : option string) : bool :=
  match v with
  | Some s => nonempty s
  | None => false
  end.

(** How a run of a script ends. *)
Inductive process_outcome : Type :=
| Exits (code : Z)
| Crashes (e : exn)
| RunsServer (port_arg : pyval).

(** The exit status, when the process ends: an uncaught exception ends the
    interpreter with status 1. *)
Definition exit_status (o : process_outcome) : option Z :=
  match o with
  | Exits code => Some code
  | Crashes _ => Some 1%Z
  | RunsServer _ => None
  end.

(** ** [app.py]: the scene parser, the generation routine, the handler and
       the server start *)

Module App.

(** *** The scene parser (lines 81 to 103) *)

(** The loop state: the list [scenes] and the dict [current_scene].
    [scenes.append(current_scene)] stores a reference, but the very next
    statement binds [current_scene] to a fresh dict and the stored one is
    never written again, so the state is a pair of values. *)
Definition parser_state : Type := (list dict * dict)%type.

Definition new_scene (line : string) : dict :=
  [("number", PStr line); ("description", PStr ""); ("elements", PList [])].

(** The loop body after [line = line.strip()]. *)
Definition process_line (st : parser_state) (line : string) : py parser_state :=
  let '(scenes, current_scene) := st in
  if nonempty line then
    if startswith (lower line) "scene" then
      let scenes' :=
        if truthy_dict current_scene then scenes ++ [current_scene] else scenes in
      Ret (scenes', new_scene line)
    else if truthy_dict current_scene then
      if contains colon line then
        '(key, value) <- unpack2 (split1 colon line) ;;
        if String.eqb (strip (lower key)) "description" then
          Ret (scenes, setitem current_scene "description" (PStr (strip value)))
        else if String.eqb (strip (lower key)) "key elements" then
          Ret (scenes,
               setitem current_scene "elements"
                 (PList (map (fun elem => PStr (strip elem)) (split comma value))))
        else Ret st
      else
        description <- getitem current_scene "description" ;;
        if negb (truthy description) then
          Ret (scenes, setitem current_scene "description" (PStr line))
        else Ret st
    else Ret st
  else Ret st.

Definition loop_body (st : parser_state) (raw : string) : py parser_state :=
  process_line st (strip raw).

(** The statements after the loop: flush the record in progress. *)
Definition flush (st : parser_state) : list dict :=
  let '(scenes, current_scene) := st in
  if truthy_dict current_scene then scenes ++ [current_scene] else scenes.

Definition parse_lines (lines : list string) : py (list dict) :=
  st <- for_each loop_body ([], []) lines ;;
  Ret (flush st).

(** From the model's reply [content] to the list [scenes]:
    [content.strip()], the split on line breaks, the loop, the flush. *)
Definition parse_scenes (content : string) : py (list dict) :=
  parse_lines (split nl (strip content)).

(** *** The generation routine (lines 48 to 116) and [main] *)

Definition error_result (message : string) : pyval :=
  PDict [("status", PStr "error"); ("message", PStr message)].

Definition success_result (topic : pyval) (scenes : list dict) : pyval :=
  PDict [("status", PStr "success");
         ("topic", topic);
         ("scenes", PList (map PDict scenes))].

Definition user_prompt (topic : pyval) : list fragment :=
  [Lit "Create a detailed video scene breakdown for a video about ";
   Fmt topic;
   Lit (". " ++ nls ++
        "             Format the output as a list of scenes, each with a scene number, description, and key elements."
        ++ nls ++
        "             Make it practical and filmable.")].

Definition request_for (topic : pyval) : chat_request :=
  ChatRequest "gpt-3.5-turbo"
    [("system", [Lit "You are a professional video scene writer."]);
     ("user", user_prompt topic)]
    1000 (QArith_base.Qmake 7 10).

(** The [try] block of [generate_video_scenes]. *)
Definition generate_try (w : world) (topic : pyval) : py pyval :=
  response <- chat_create w (request_for topic) ;;
  content <- first_item (choices response) ;;
  scene_content <- content_strip content ;;
  scenes <- parse_lines (split nl scene_content) ;;
  Ret (success_result topic scenes).

Definition generate_video_scenes (w : world) (topic : pyval) : py pyval :=
  try_except (generate_try w topic)
    (fun e => Ret (error_result (exn_str e))).

Definition main (w : world) (topic : pyval) : py pyval :=
  try_except (generate_video_scenes w topic)
    (fun e => Ret (error_result (exn_str e))).

(** The handler of [POST /api/crewai]; [get_json] is what
    [request.get_json()] does on the request.  The answer is the value given
    to [jsonify] and the status code. *)
Definition execute_crewai (w : world) (get_json : py pyval) : py (pyval * nat) :=
  try_except
    (data <- get_json ;;
     if negb (truthy data) then Ret (error_result "No data provided", 400)
     else
       topic <- method_get data "topic" ;;
       if negb (truthy topic) then Ret (error_result "Topic is required", 400)
       else
         result <- main w topic ;;
         status <- method_get result "status" ;;
         if eq_str status "error" then Ret (result, 500)
         else Ret (result, 200))
    (fun e => Ret (error_result (exn_str e), 500)).

(** Running [app.py] as a script: the module-level client construction of
    line 21, then the guard of lines 178 to 180; past the guard the server
    is started with the raw port value. *)
Definition script (w : world) : process_outcome :=
  match openai_init w (getenv w "OPENAI_API_KEY") with
  | Some e => Crashes e
  | None =>
      if negb (truthy_env (getenv w "OPENAI_API_KEY")) then Exits 1
      else RunsServer (match getenv w "PORT" with
                       | Some p => PStr p
                       | None => PInt 5000
                       end)
  end.

End App.

(** ** [crew.py]: generation routine and command line *)

Module Crew.

Definition key_missing_message : string :=
  "OpenAI API key not found! Please set your OPENAI_API_KEY environment variable."
  ++ nls ++ "You can do this by either:"
  ++ nls ++ "1. Creating a .env file with OPENAI_API_KEY=your-key-here"
  ++ nls ++ "2. Setting it in your terminal: export OPENAI_API_KEY=your-key-here".

Definition get_openai_client (w : world) : py unit :=
  let api_key := getenv w "OPENAI_API_KEY" in
  if negb (truthy_env api_key) then Raise (Exn ValueError key_missing_message)
  else match openai_init w api_key with
       | Some e => Raise e
       | None => Ret tt
       end.

Definition prompt (topic : string) : list fragment :=
  [Lit "Create a detailed video scene breakdown for a video about ";
   FmtMethod (PStr topic) "title";
   Lit ". Include different scenes, key elements, and descriptions."].

Definition request_for (topic : string) : chat_request :=
  ChatRequest "gpt-3.5-turbo" [("user", prompt topic)] 200
    (QArith_base.Qmake 7 10).

(** [[scene.strip() for scene in scene_context.split("\n") if scene]] *)
Definition scene_lines (scene_context : string) : list string :=
  map strip (filter nonempty (split nl scene_context)).

Definition success_object (topic : string) (scenes : list string) : pyval :=
  PDict [("topic", PStr topic); ("scenes", PList (map PStr scenes))].

Definition error_object (message : string) : pyval :=
  PDict [("error", PStr message)].

(** The [try] block of [generate_video_scenes]. *)
Definition generate_try (w : world) (topic : string) : py string :=
  _ <- get_openai_client w ;;
  response <- chat_create w (request_for topic) ;;
  content <- first_item (choices response) ;;
  scene_context <- content_strip content ;;
  let scenes := scene_lines scene_context in
  Ret (Json.dumps (Some 4) (success_object topic scenes)).

Definition generate_video_scenes (w : world) (topic : string) : py string :=
  try_except (generate_try w topic)
    (fun e =>
       if is_ValueError e then
         Ret (Json.dumps None (error_object (exn_str e)))
       else
         Ret (Json.dumps None (error_object ("An error occurred: " ++ exn_str e)))).

(** What a command-line run leaves behind: the lines printed to standard
    output and the exit status. *)
Record cli_run : Type := CliRun { stdout : list string; status : Z }.

Definition usage : string := "Usage: python crew.py <topic>".

(** [main()] under [sys.argv = argv]. *)
Definition main (w : world) (argv : list string) : cli_run :=
  if negb (length argv =? 2)%nat then CliRun [usage] 1
  else
    let topic := nth 1 argv EmptyString in
    match generate_video_scenes w topic with
    | Ret video_scenes => CliRun [video_scenes] 0
    | Raise _ => CliRun [] 1
    end.

End Crew.

(** ** Scene records as the specification words them (sections 3 and 4.2) *)

Module Spec.

Record scene : Type := Scene {
  number : string;
  description : string;
  elements : list string
}.

(** A line beginning with the token "scene", case-insensitively. *)
Definition is_header (line : string) : bool := startswith (lower line) "scene".

(** A [key: value] line, cut at its first colon; [None] for a colon-free line. *)
Fixpoint key_value (line : string) : option (string * string) :=
  match line with
  | EmptyString => None
  | String c rest =>
      if Ascii.eqb c colon then Some (EmptyString, rest)
      else match key_value rest with
           | Some (k, v) => Some (String c k, v)
           | None => None
           end
  end.

(** What one line after a header does to the record that owns it: only the
    keys "description" and "key elements" are recognised, the latter
    comma-split; a colon-free line fills an empty description. *)
Definition apply_line (r : scene) (line : string) : scene :=
  match key_value line with
  | Some (key, value) =>
      if String.eqb (strip (lower key)) "description" then
        Scene (number r) (strip value) (elements r)
      else if String.eqb (strip (lower key)) "key elements" then
        Scene (number r) (description r) (map strip (split comma value))
      else r
  | None =>
      if nonempty (description r) then r
      else Scene (number r) line (elements r)
  end.

(** The record a header line opens, after the lines that follow it. *)
Definition record_of (header : string) (body : list string) : scene :=
  fold_left apply_line body (Scene header EmptyString []).

(** The stripped, non-blank lines of a text. *)
Definition normal (lines : list string) : list string :=
  filter nonempty (map strip lines).

Definition normal_lines (text : string) : list string :=
  normal (split nl text).

(** The lines up to the next header. *)
Fixpoint body_of (lines : list string) : list string :=
  match lines with
  | [] => []
  | l :: rest => if is_header l then [] else l :: body_of rest
  end.

(** One block per header line: the header and the lines it owns. *)
Fixpoint blocks (lines : list string) : list (string * list string) :=
  match lines with
  | [] => []
  | l :: rest =>
      if is_header l then (l, body_of rest) :: blocks rest else blocks rest
  end.

Definition block_lines (b : string * list string) : list string :=
  fst b :: snd b.

Definition block_record (b : string * list string) : scene :=
  record_of (fst b) (snd b).

Definition parse (text : string) : list scene :=
  map block_record (blocks (normal_lines text)).

(** The dict the code builds for a record. *)
Definition to_dict (r : scene) : dict :=
  [("number", PStr (number r));
   ("description", PStr (description r));
   ("elements", PList (map PStr (elements r)))].

End Spec.

(** ** Auxiliary definitions for the statements and their proofs *)

Import Spec.

Definition non_header (l : string) : Prop := is_header l = false.

Definition well_formed_block (b : string * list string) : Prop :=
  is_header (fst b) = true /\ Forall non_header (snd b).

(** A record of the output list: the three fields, in the order of their
    creation, its number a header line. *)
Definition scene_shape (d : dict) : Prop :=
  exists r : scene, d = to_dict r /\ is_header (number r) = true.

(** [p] glued in front of the first of [lines]. *)
Definition prepend (p : string) (lines : list string) : list string :=
  match lines with
  | h :: t => (p ++ h)%string :: t
  | [] => [p]
  end.

(** The loop's final state, flushed. *)
Definition finish (st : py App.parser_state) : py (list dict) :=
  st' <- st ;; Ret (App.flush st').

(** [v[k]] read off a result, [None] when [v] is no dict or has no such key. *)
Definition field (v : pyval) (k : string) : option pyval :=
  match v with
  | PDict d => dict_lookup d k
  | _ => None
  end.

(** The text a call of the service carries, as both routines read it:
    [response.choices[0].message.content.strip()]. *)
Definition reply_text (r : py completion) : py string :=
  response <- r ;;
  content <- first_item (choices response) ;;
  content_strip content.

(** The text the CLI routine returns when its [try] block raised [e]. *)
Definition cli_error_text (e : exn) : string :=
  Json.dumps None
    (Crew.error_object
       (if is_ValueError e then exn_str e
        else ("An error occurred: " ++ exn_str e)%string)).

(** The one-character string holding a double quote, for JSON texts. *)
Definition dq : string := String Json.dquote EmptyString.

(** *** Reading a JSON string back *)

Inductive read_state : Type :=
| Plain
| Escaped
| Hex (remaining acc : nat).

Definition hex_value (c : ascii) : option nat :=
  let n := nat_of_ascii c in
  if ((48 <=? n) && (n <=? 57))%nat then Some (n - 48)
  else if ((97 <=? n) && (n <=? 102))%nat then Some (n - 87)
  else None.

Definition push (c : ascii) (r : option (string * string))
  : option (string * string) :=
  match r with
  | Some (s, rest) => Some (String c s, rest)
  | None => None
  end.

(** The characters of a JSON string up to its closing quote, escapes
    undone, and the text after the quote. *)
Fixpoint read_body (st : read_state) (s : string) : option (string * string) :=
  match s with
  | EmptyString => None
  | String c s' =>
      match st with
      | Plain =>
          if Ascii.eqb c Json.dquote then Some (EmptyString, s')
          else if Ascii.eqb c Json.backslash then read_body Escaped s'
          else push c (read_body Plain s')
      | Escaped =>
          if Ascii.eqb c "u" then read_body (Hex 4 0) s'
          else if Ascii.eqb c Json.dquote then push c (read_body Plain s')
          else if Ascii.eqb c Json.backslash then push c (read_body Plain s')
          else if Ascii.eqb c "b" then push "008"%char (read_body Plain s')
          else if Ascii.eqb c "t" then push "009"%char (read_body Plain s')
          else if Ascii.eqb c "n" then push "010"%char (read_body Plain s')
          else if Ascii.eqb c "f" then push "012"%char (read_body Plain s')
          else if Ascii.eqb c "r" then push "013"%char (read_body Plain s')
          else None
      | Hex (S k) acc =>
          match hex_value c with
          | None => None
          | Some v =>
              match k with
              | O => push (ascii_of_nat (16 * acc + v)) (read_body Plain s')
              | S _ => read_body (Hex k (16 * acc + v)) s'
              end
          end
      | Hex O _ => None
      end
  end.

(** A JSON string at the head of a text: its value and the text after it. *)
Definition read_string (s : string) : option (string * string) :=
  match s with
  | String c s' => if Ascii.eqb c Json.dquote then read_body Plain s' else None
  | EmptyString => None
  end.


(** The text of the CLI routine up to the value of its topic field. *)
Definition topic_prefix : string :=
  "{" ++ nls ++ "    " ++ Json.encode_str "topic" ++ ": ".


(** The shape the specification gives every error: a dict with the keys
    status and message, or its JSON text. *)
Definition uniform_error (v : pyval) : Prop :=
  exists message : string, v = App.error_result message.

Definition uniform_error_text (s : string) : Prop :=
  exists (indent : option nat) (message : string),
    s = Json.dumps indent (App.error_result message).

(** *** Concrete inputs *)

(** The example text of the specification. *)
Definition example_text : string :=
  "Scene 1" ++ nls ++
  "Description: A sunrise over mountains" ++ nls ++
  "Key Elements: sun, peak, fog" ++ nls ++
  "Scene 2" ++ nls ++
  "Description: A city street" ++ nls ++
  "Key Elements: car, crowd".

Definition example_lines : list string :=
  ["Scene 1"; "Description: A sunrise over mountains";
   "Key Elements: sun, peak, fog";
   "Scene 2"; "Description: A city street"; "Key Elements: car, crowd"].

Definition example_scenes : list dict :=
  [ [("number", PStr "Scene 1");
     ("description", PStr "A sunrise over mountains");
     ("elements", PList [PStr "sun"; PStr "peak"; PStr "fog"])];
    [("number", PStr "Scene 2");
     ("description", PStr "A city street");
     ("elements", PList [PStr "car"; PStr "crowd"])] ].

Definition example_http_result : pyval :=
  App.success_result (PStr "sunrise") example_scenes.

Definition example_cli_text : string :=
  Json.dumps (Some 4) (Crew.success_object "sunrise" example_lines).

(** A text whose first line is no header. *)
Definition preamble_text : string :=
  "Here is your breakdown" ++ nls ++ "Scene 1" ++ nls ++ "Opening shot".

Definition env_with_key (name : string) : option string :=
  if String.eqb name "OPENAI_API_KEY" then Some "sk-test" else None.

(** A world with a credential whose service answers every request with [text]. *)
Definition replying_world (text : string) : world :=
  World env_with_key (fun _ => None) (fun _ => Ret (Completion [Some text])).

(** A world with no credential, where the client library refuses to be
    built without one. *)
Definition keyless_world : world :=
  World (fun _ => None)
    (fun key => match key with
                | None => Some (Exn (OtherException "OpenAIError" false)
                                  "The api_key client option must be set")
                | Some _ => None
                end)
    (fun _ => Raise (Exn (OtherException "AuthenticationError" false)
                       "No API key provided")).

(** A world with no credential whose client library builds a client all the
    same. *)
Definition lenient_keyless_world : world :=
  World (fun _ => None) (fun _ => None)
    (fun _ => Raise (Exn (OtherException "AuthenticationError" false)
                       "No API key provided")).

(** A world with a credential whose service cannot be reached. *)
Definition offline_world : world :=
  World env_with_key (fun _ => None)
    (fun _ => Raise (Exn (OtherException "APIConnectionError" false)
                       "Connection error.")).

(** ** Definitions for the further properties *)

(** A string with no white space at either end. *)
Definition trimmed (s : string) : Prop := strip s = s.

(** A record whose strings carry no white space at either end. *)
Definition trimmed_record (r : scene) : Prop :=
  trimmed (number r) /\ trimmed (description r) /\ Forall trimmed (elements r).

(** A world whose environment holds an empty credential. *)
Definition empty_key_world : world :=
  World (fun name => if String.eqb name "OPENAI_API_KEY" then Some "" else None)
    (fun _ => None)
    (fun _ => Raise (Exn (OtherException "AuthenticationError" false)
                       "No API key provided")).

(** A world with a credential whose service sends a completion with no
    choice. *)
Definition choiceless_world : world :=
  World env_with_key (fun _ => None) (fun _ => Ret (Completion [])).

(** The text of the CLI routine up to the value of its error field. *)
Definition error_prefix : string := "{" ++ Json.encode_str "error" ++ ": ".

(** The items of a JSON array of strings at nesting level 2, as
    [json.dumps] with indent 4 separates them. *)
Definition items (scenes : list string) : string :=
  String.concat ("," ++ nls ++ "        ") (map Json.encode_str scenes).

(** A reply in which no line starts with the word, as a model that numbers
    its scenes in a list would write it. *)
Definition numbered_reply : string :=
  "1. Scene one: the harbour" ++ nls ++ "Description: Boats at dawn".

(** * Facts about the string builtins *)

Section StringFacts.

Lemma append_empty_r (s : string) : (s ++ EmptyString)%string = s.
Proof. induction s as [|c s IH]; simpl; [reflexivity | now rewrite IH]. Qed.

Lemma append_assoc (a b c : string) :
  ((a ++ b) ++ c)%string = (a ++ (b ++ c))%string.
Proof. induction a as [|x a IH]; simpl; [reflexivity | now rewrite IH]. Qed.

Lemma append_snoc (p : string) (c : ascii) (h : string) :
  ((p ++ String c EmptyString) ++ h)%string = (p ++ String c h)%string.
Proof. now rewrite append_assoc. Qed.

Lemma split_cons (sep : ascii) (s : string) :
  exists h t, split sep s = h :: t.
Proof.
  induction s as [|c s [h [t IH]]]; simpl.
  - now exists EmptyString, [].
  - destruct (Ascii.eqb c sep).
    + now exists EmptyString, (split sep s).
    + rewrite IH. now exists (String c h), t.
Qed.

Lemma rstrip_snoc_space (x : string) (c : ascii) :
  is_space c = true -> rstrip (x ++ String c EmptyString) = rstrip x.
Proof.
  intros Hc. induction x as [|a x IH]; simpl.
  - now rewrite Hc.
  - now rewrite IH.
Qed.

Lemma strip_cons_space (c : ascii) (s : string) :
  is_space c = true -> strip (String c s) = strip s.
Proof. intros Hc. unfold strip. simpl. now rewrite Hc. Qed.

Lemma strip_snoc_space (p : string) (c : ascii) :
  is_space c = true -> strip (p ++ String c EmptyString) = strip p.
Proof.
  intros Hc. unfold strip. induction p as [|a p IH]; simpl.
  - now rewrite Hc.
  - destruct (is_space a); [exact IH|].
    change (String a (p ++ String c EmptyString))%string
      with (String a p ++ String c EmptyString)%string.
    now apply rstrip_snoc_space.
Qed.

Lemma rstrip_cons (c : ascii) (s : string) :
  rstrip (String c s) = String c (rstrip s)
  \/ (is_space c = true /\ rstrip s = EmptyString
      /\ rstrip (String c s) = EmptyString).
Proof.
  simpl. destruct (rstrip s) eqn:E.
  - destruct (is_space c); [right; auto | left; reflexivity].
  - left; reflexivity.
Qed.

End StringFacts.

Section NormalLines.

Lemma normal_cons (l : string) (ls : list string) :
  normal (l :: ls) = (if nonempty (strip l) then [strip l] else []) ++ normal ls.
Proof. unfold normal. simpl. now destruct (nonempty (strip l)). Qed.

Lemma prepend_split_cons (p : string) (c : ascii) (s : string) :
  prepend p (split nl (String c s)) =
  if Ascii.eqb c nl then (p ++ EmptyString)%string :: split nl s
  else prepend (p ++ String c EmptyString) (split nl s).
Proof.
  simpl. destruct (Ascii.eqb c nl); [reflexivity|].
  destruct (split_cons nl s) as [h [t E]]. rewrite E. simpl.
  now rewrite append_snoc.
Qed.

Lemma prepend_empty_split (s : string) :
  prepend EmptyString (split nl s) = split nl s.
Proof. destruct (split_cons nl s) as [h [t E]]. now rewrite E. Qed.

Lemma normal_split_rstrip (s : string) :
  forall p, normal (prepend p (split nl (rstrip s)))
            = normal (prepend p (split nl s)).
Proof.
  induction s as [|c s IH]; intros p; [reflexivity|].
  assert (Hstep : normal (prepend p (split nl (String c (rstrip s))))
                  = normal (prepend p (split nl (String c s)))).
  { rewrite !prepend_split_cons. destruct (Ascii.eqb c nl).
    - rewrite !normal_cons. f_equal.
      rewrite <- (prepend_empty_split (rstrip s)), <- (prepend_empty_split s).
      apply IH.
    - apply IH. }
  destruct (rstrip_cons c s) as [E | [Hc [Es E]]].
  - rewrite E. exact Hstep.
  - rewrite E, <- Hstep, Es.
    rewrite prepend_split_cons. simpl.
    destruct (Ascii.eqb c nl).
    + rewrite !normal_cons. simpl. now rewrite app_nil_r.
    + rewrite !normal_cons. rewrite !append_empty_r.
      now rewrite strip_snoc_space.
Qed.

Lemma normal_split_lstrip (s : string) :
  normal (split nl (lstrip s)) = normal (split nl s).
Proof.
  induction s as [|c s IH]; [reflexivity|].
  simpl lstrip. destruct (is_space c) eqn:Hc; [|reflexivity].
  rewrite IH. simpl.
  destruct (Ascii.eqb c nl).
  - now rewrite normal_cons.
  - destruct (split_cons nl s) as [h [t E]]. rewrite E.
    rewrite !normal_cons. now rewrite strip_cons_space.
Qed.

(** Stripping the whole text first does not change its stripped,
    non-blank lines. *)
Lemma normal_split_strip (text : string) :
  normal (split nl (strip text)) = normal_lines text.
Proof.
  unfold normal_lines, strip.
  rewrite <- (prepend_empty_split (rstrip (lstrip text))).
  rewrite normal_split_rstrip, prepend_empty_split.
  apply normal_split_lstrip.
Qed.

End NormalLines.

Section ParserRefinement.

Import App.

Lemma for_each_loop_body (st : parser_state) (lines : list string) :
  for_each loop_body st lines = for_each process_line st (map strip lines).
Proof.
  revert st. induction lines as [|l ls IH]; intros st; simpl; [reflexivity|].
  unfold loop_body at 1. destruct (process_line st (strip l)); simpl; auto.
Qed.

Lemma process_line_blank (st : parser_state) :
  process_line st EmptyString = Ret st.
Proof. now destruct st. Qed.

Lemma for_each_skip_blank (st : parser_state) (lines : list string) :
  for_each process_line st lines
  = for_each process_line st (filter nonempty lines).
Proof.
  revert st. induction lines as [|l ls IH]; intros st; simpl; [reflexivity|].
  destruct l as [|c l].
  - rewrite process_line_blank. simpl. apply IH.
  - simpl nonempty. cbv iota. simpl for_each.
    destruct (process_line st (String c l)); simpl; auto.
Qed.

Lemma header_nonempty (l : string) : is_header l = true -> nonempty l = true.
Proof. destruct l; [discriminate | reflexivity]. Qed.

Lemma key_value_split1 (l : string) :
  match key_value l with
  | Some (k, v) => contains colon l = true /\ split1 colon l = [k; v]
  | None => contains colon l = false
  end.
Proof.
  induction l as [|c l IH]; simpl; [reflexivity|].
  destruct (Ascii.eqb c colon); simpl; [split; reflexivity|].
  destruct (key_value l) as [[k v]|].
  - destruct IH as [Hc Hs]. rewrite Hs. now split.
  - exact IH.
Qed.

Lemma process_line_header (scenes : list dict) (cur : dict) (l : string) :
  is_header l = true ->
  process_line (scenes, cur) l
  = Ret (flush (scenes, cur), to_dict (Scene l EmptyString [])).
Proof.
  intros H. unfold process_line. rewrite (header_nonempty l H).
  unfold is_header in H. now rewrite H.
Qed.

Lemma process_line_preamble (scenes : list dict) (l : string) :
  is_header l = false -> process_line (scenes, []) l = Ret (scenes, []).
Proof.
  intros H. unfold process_line. unfold is_header in H. rewrite H.
  now destruct (nonempty l).
Qed.

Lemma process_line_body (scenes : list dict) (r : scene) (l : string) :
  nonempty l = true -> is_header l = false ->
  process_line (scenes, to_dict r) l = Ret (scenes, to_dict (apply_line r l)).
Proof.
  intros Hn Hh. unfold process_line, apply_line.
  unfold is_header in Hh. rewrite Hn, Hh. simpl truthy_dict. cbv iota.
  pose proof (key_value_split1 l) as K.
  destruct (key_value l) as [[k v]|].
  - destruct K as [Hc Hs]. rewrite Hc, Hs. simpl.
    destruct (String.eqb (strip (lower k)) "description").
    + unfold to_dict. simpl. reflexivity.
    + destruct (String.eqb (strip (lower k)) "key elements").
      * unfold to_dict. simpl. now rewrite map_map.
      * reflexivity.
  - rewrite K. simpl.
    destruct (nonempty (description r)); reflexivity.
Qed.

Lemma for_each_cons {S A : Type} (body : S -> A -> py S) (st : S) (x : A)
      (xs : list A) :
  for_each body st (x :: xs) = (st' <- body st x ;; for_each body st' xs).
Proof. reflexivity. Qed.

Lemma run_blocks (ls : list string) :
  Forall (fun l => nonempty l = true) ls ->
  forall scenes,
    (forall r,
       finish (for_each process_line (scenes, to_dict r) ls)
       = Ret (scenes ++ to_dict (fold_left apply_line (body_of ls) r)
                     :: map to_dict (map block_record (blocks ls))))
    /\ finish (for_each process_line (scenes, []) ls)
       = Ret (scenes ++ map to_dict (map block_record (blocks ls))).
Proof.
  induction 1 as [|l ls Hl Hls IH]; intros scenes.
  - split; [intros r|]; simpl; [reflexivity | now rewrite app_nil_r].
  - destruct (is_header l) eqn:Hh.
    + split; [intros r|]; rewrite for_each_cons;
        rewrite (process_line_header _ _ _ Hh); cbn [bind];
        rewrite (proj1 (IH _)); cbn [body_of blocks map fold_left flush];
        rewrite Hh; cbn [map fold_left truthy_dict truthy to_dict].
      * now rewrite <- app_assoc.
      * reflexivity.
    + split; [intros r|]; rewrite for_each_cons.
      * rewrite (process_line_body _ _ _ Hl Hh). cbn [bind].
        rewrite (proj1 (IH _)). cbn [body_of blocks]. now rewrite Hh.
      * rewrite (process_line_preamble _ _ Hh). cbn [bind].
        rewrite (proj2 (IH _)). cbn [body_of blocks]. now rewrite Hh.
Qed.

Lemma normal_all_nonempty (lines : list string) :
  Forall (fun l => nonempty l = true) (normal lines).
Proof.
  apply Forall_forall. intros l Hin. unfold normal in Hin.
  apply filter_In in Hin. tauto.
Qed.

Lemma parse_lines_refines (lines : list string) :
  parse_lines lines
  = Ret (map to_dict (map block_record (blocks (normal lines)))).
Proof.
  unfold parse_lines. rewrite for_each_loop_body, for_each_skip_blank.
  apply (run_blocks _ (normal_all_nonempty lines) []).
Qed.

(** The parser of [app.py] computes, for every text, the dicts of the
    records the specification describes. *)
Lemma parse_scenes_refines (text : string) :
  parse_scenes text = Ret (map to_dict (Spec.parse text)).
Proof.
  unfold parse_scenes, Spec.parse. rewrite parse_lines_refines.
  now rewrite normal_split_strip.
Qed.

End ParserRefinement.

Section Blocks.

Lemma lines_decompose (ls : list string) :
  ls = body_of ls ++ flat_map block_lines (blocks ls).
Proof.
  induction ls as [|l ls IH]; [reflexivity|].
  simpl. destruct (is_header l); simpl; now rewrite <- IH.
Qed.

Lemma body_of_non_header (ls : list string) : Forall non_header (body_of ls).
Proof.
  induction ls as [|l ls IH]; simpl; [constructor|].
  destruct (is_header l) eqn:H; [constructor | now constructor].
Qed.

Lemma blocks_well_formed (ls : list string) :
  Forall well_formed_block (blocks ls).
Proof.
  induction ls as [|l ls IH]; simpl; [constructor|].
  destruct (is_header l) eqn:H; [|exact IH].
  constructor; [|exact IH]. split; [exact H | apply body_of_non_header].
Qed.

Lemma blocks_headers (ls : list string) :
  map fst (blocks ls) = filter is_header ls.
Proof.
  induction ls as [|l ls IH]; simpl; [reflexivity|].
  destruct (is_header l); simpl; now rewrite IH.
Qed.

Lemma strip_empty_nonempty (l : string) :
  nonempty (strip l) = true -> nonempty l = true.
Proof. destruct l; [discriminate | reflexivity]. Qed.

Lemma normal_headers (lines : list string) :
  filter is_header (normal lines) = filter is_header (map strip lines).
Proof.
  unfold normal. induction lines as [|l ls IH]; simpl; [reflexivity|].
  destruct (nonempty (strip l)) eqn:Hn; simpl; rewrite IH; [reflexivity|].
  destruct (is_header (strip l)) eqn:Hh; [|reflexivity].
  apply header_nonempty in Hh. congruence.
Qed.

Lemma body_of_app (pre rest : list string) :
  Forall non_header pre -> body_of (pre ++ rest) = pre ++ body_of rest.
Proof.
  induction 1 as [|l pre Hl Hpre IH]; simpl; [reflexivity|].
  rewrite Hl. now rewrite IH.
Qed.

Lemma blocks_app (pre rest : list string) :
  Forall non_header pre -> blocks (pre ++ rest) = blocks rest.
Proof.
  induction 1 as [|l pre Hl Hpre IH]; simpl; [reflexivity|].
  now rewrite Hl.
Qed.

Lemma body_of_blocks_start (groups : list (string * list string)) :
  Forall well_formed_block groups ->
  body_of (flat_map block_lines groups) = [].
Proof.
  destruct 1 as [|[h body] gs [Hh _] _]; simpl; [reflexivity|].
  simpl in Hh. now rewrite Hh.
Qed.

Lemma blocks_of_blocks (groups : list (string * list string)) :
  Forall well_formed_block groups ->
  blocks (flat_map block_lines groups) = groups.
Proof.
  induction 1 as [|[h body] gs [Hh Hb] Hgs IH]; simpl; [reflexivity|].
  simpl in Hh, Hb. rewrite Hh.
  rewrite (body_of_app _ _ Hb), (blocks_app _ _ Hb), IH.
  now rewrite (body_of_blocks_start _ Hgs), app_nil_r.
Qed.

(** The split of a list of lines into the lines before the first header
    and the header-led blocks is unique. *)
Lemma decomposition_unique (ls pre : list string)
      (groups : list (string * list string)) :
  ls = pre ++ flat_map block_lines groups ->
  Forall non_header pre -> Forall well_formed_block groups ->
  pre = body_of ls /\ groups = blocks ls.
Proof.
  intros -> Hpre Hgs. split.
  - now rewrite (body_of_app _ _ Hpre), (body_of_blocks_start _ Hgs), app_nil_r.
  - now rewrite (blocks_app _ _ Hpre), (blocks_of_blocks _ Hgs).
Qed.

Lemma apply_line_number (r : scene) (l : string) :
  number (apply_line r l) = number r.
Proof.
  unfold apply_line. destruct (key_value l) as [[k v]|].
  - destruct (String.eqb _ _); [reflexivity|].
    destruct (String.eqb _ _); reflexivity.
  - destruct (nonempty _); reflexivity.
Qed.

Lemma record_of_number (h : string) (body : list string) :
  number (record_of h body) = h.
Proof.
  unfold record_of.
  assert (G : forall r, number (fold_left apply_line body r) = number r).
  { induction body as [|l body IH]; intros r; simpl; [reflexivity|].
    now rewrite IH, apply_line_number. }
  now rewrite G.
Qed.

End Blocks.

Section Generation.

Variable w : world.

Lemma app_generate_try_reply (topic : pyval) :
  App.generate_try w topic
  = (text <- reply_text (chat_create w (App.request_for topic)) ;;
     scenes <- App.parse_lines (split nl text) ;;
     Ret (App.success_result topic scenes)).
Proof.
  unfold App.generate_try, reply_text.
  destruct (chat_create w _) as [resp|e]; [|reflexivity]. simpl.
  destruct (first_item (choices resp)) as [content|e]; [|reflexivity]. simpl.
  destruct (content_strip content); reflexivity.
Qed.

Lemma parse_lines_total (lines : list string) :
  exists scenes, App.parse_lines lines = Ret scenes.
Proof. eexists. apply parse_lines_refines. Qed.

(** The [try] block of the HTTP routine fails exactly when the service call
    or the reading of its reply fails; the parser adds no failure. *)
Lemma app_generate_try_cases (topic : pyval) :
  match App.generate_try w topic with
  | Ret result =>
      exists text scenes,
        reply_text (chat_create w (App.request_for topic)) = Ret text
        /\ App.parse_lines (split nl text) = Ret scenes
        /\ Forall scene_shape scenes
        /\ result = App.success_result topic scenes
  | Raise e =>
      reply_text (chat_create w (App.request_for topic)) = Raise e
  end.
Proof.
  rewrite app_generate_try_reply.
  destruct (reply_text _) as [text|e]; [|reflexivity]. simpl.
  rewrite parse_lines_refines. simpl.
  exists text. eexists.
  split; [reflexivity|]. split; [apply parse_lines_refines|].
  split; [|reflexivity].
  rewrite map_map. apply Forall_forall. intros d Hin.
  apply in_map_iff in Hin. destruct Hin as [[h body] [Hd Hin]]. subst d.
  exists (block_record (h, body)). split; [reflexivity|].
  unfold block_record. simpl. rewrite record_of_number.
  pose proof (blocks_well_formed (normal (split nl text))) as W.
  rewrite Forall_forall in W. apply (W _ Hin).
Qed.

Lemma app_generate_total (topic : pyval) :
  exists result, App.generate_video_scenes w topic = Ret result
    /\ App.main w topic = Ret result
    /\ ((exists e, App.generate_try w topic = Raise e
                   /\ result = App.error_result (exn_str e))
        \/ (exists scenes, App.generate_try w topic = Ret result
                   /\ Forall scene_shape scenes
                   /\ result = App.success_result topic scenes)).
Proof.
  unfold App.main, App.generate_video_scenes.
  pose proof (app_generate_try_cases topic) as C.
  destruct (App.generate_try w topic) as [result|e]; simpl.
  - exists result. repeat split; try reflexivity. right.
    destruct C as (text & scenes & _ & _ & Hs & Hr). exists scenes. auto.
  - eexists. repeat split; try reflexivity. left. exists e. auto.
Qed.

Lemma crew_generate_try_reply (topic : string) :
  Crew.generate_try w topic
  = (_ <- Crew.get_openai_client w ;;
     text <- reply_text (chat_create w (Crew.request_for topic)) ;;
     Ret (Json.dumps (Some 4) (Crew.success_object topic (Crew.scene_lines text)))).
Proof.
  unfold Crew.generate_try, reply_text.
  destruct (Crew.get_openai_client w); [|reflexivity]. simpl.
  destruct (chat_create w _) as [resp|e]; [|reflexivity]. simpl.
  destruct (first_item (choices resp)) as [content|e]; [|reflexivity]. simpl.
  destruct (content_strip content); reflexivity.
Qed.

Lemma crew_generate_cases (topic : string) :
  match Crew.generate_try w topic with
  | Ret text =>
      Crew.generate_video_scenes w topic = Ret text
      /\ exists scenes,
           text = Json.dumps (Some 4) (Crew.success_object topic scenes)
  | Raise e => Crew.generate_video_scenes w topic = Ret (cli_error_text e)
  end.
Proof.
  unfold Crew.generate_video_scenes, cli_error_text.
  pose proof (crew_generate_try_reply topic) as R.
  destruct (Crew.generate_try w topic) as [text|e]; simpl.
  - split; [reflexivity|].
    destruct (Crew.get_openai_client w); [|discriminate R]. simpl in R.
    destruct (reply_text _) as [t|]; [|discriminate R]. simpl in R.
    injection R as ->. eexists. reflexivity.
  - destruct (is_ValueError e); reflexivity.
Qed.

Lemma crew_generate_total (topic : string) :
  exists text, Crew.generate_video_scenes w topic = Ret text
    /\ exists indent value, text = Json.dumps indent value.
Proof.
  pose proof (crew_generate_cases topic) as C.
  destruct (Crew.generate_try w topic) as [text|e].
  - destruct C as [E [scenes ->]]. eexists. split; [exact E|].
    eexists. eexists. reflexivity.
  - eexists. split; [exact C|]. eexists. eexists. reflexivity.
Qed.

Lemma crew_missing_key (topic : string) :
  truthy_env (getenv w "OPENAI_API_KEY") = false ->
  Crew.get_openai_client w = Raise (Exn ValueError Crew.key_missing_message)
  /\ Crew.generate_video_scenes w topic
     = Ret (Json.dumps None (Crew.error_object Crew.key_missing_message)).
Proof.
  intros H.
  assert (G : Crew.get_openai_client w
              = Raise (Exn ValueError Crew.key_missing_message)).
  { unfold Crew.get_openai_client. now rewrite H. }
  split; [exact G|].
  unfold Crew.generate_video_scenes, Crew.generate_try. now rewrite G.
Qed.

End Generation.

Section Routines.

Lemma normal_incl_scene_lines (x : string) :
  incl (normal (split nl x)) (Crew.scene_lines x).
Proof.
  unfold normal, Crew.scene_lines. intros l Hin.
  apply filter_In in Hin. destruct Hin as [Hin Hn].
  apply in_map_iff in Hin. destruct Hin as [raw [<- Hraw]].
  apply in_map. apply filter_In. split; [exact Hraw|].
  now apply strip_empty_nonempty.
Qed.

Lemma parse_numbers_incl (content : string) :
  incl (map number (Spec.parse content)) (Crew.scene_lines (strip content)).
Proof.
  intros h Hin. apply normal_incl_scene_lines.
  rewrite normal_split_strip. unfold Spec.parse in Hin.
  rewrite map_map in Hin. apply in_map_iff in Hin.
  destruct Hin as [[h' body] [E Hin]]. unfold block_record in E. simpl in E.
  rewrite record_of_number in E. subst h'.
  assert (Hf : In h (filter is_header (normal_lines content))).
  { rewrite <- blocks_headers. apply in_map_iff. now exists (h, body). }
  apply filter_In in Hf. tauto.
Qed.

End Routines.

Section Handler.

(** What the handler does with a body that is absent or a JSON object: 400
    without a non-empty topic, otherwise 500 with the error dict when the
    generation fails and 200 with the success dict when it does not. *)
Lemma execute_crewai_on_object (w : world) (data : pyval) :
  data = PNone \/ (exists d : dict, data = PDict d) ->
  let topic := match field data "topic" with Some t => t | None => PNone end in
  App.execute_crewai w (Ret data)
  = if negb (truthy data) then
      Ret (App.error_result "No data provided", 400)
    else if negb (truthy topic) then
      Ret (App.error_result "Topic is required", 400)
    else match App.generate_try w topic with
         | Raise e => Ret (App.error_result (exn_str e), 500)
         | Ret result => Ret (result, 200)
         end.
Proof.
  intros [-> | [d ->]] topic; [reflexivity|].
  unfold App.execute_crewai. cbn [bind].
  destruct (truthy (PDict d)) eqn:Hd; [|reflexivity].
  cbn [negb method_get bind]. fold (field (PDict d) "topic"). fold topic.
  destruct (truthy topic) eqn:Ht; [|reflexivity]. cbn [negb].
  destruct (app_generate_total w topic) as (r & _ & Hm & Hcase).
  rewrite Hm. cbn [bind].
  destruct Hcase as [(e & He & ->) | (scenes & Hok & _ & ->)].
  - rewrite He. reflexivity.
  - rewrite Hok. reflexivity.
Qed.

(** A body that is true for Python and no JSON object makes [data.get]
    raise, which the handler answers with 500. *)
Lemma execute_crewai_non_object (w : world) (data : pyval) :
  truthy data = true ->
  (forall d : dict, data <> PDict d) ->
  App.execute_crewai w (Ret data)
  = Ret (App.error_result
           (quote (type_name data) ++ " object has no attribute 'get'"), 500).
Proof.
  intros Ht Hd. unfold App.execute_crewai. cbn [bind]. rewrite Ht.
  destruct data; try reflexivity. now destruct (Hd d).
Qed.

(** A failure of [request.get_json()] itself is answered with 500 too. *)
Lemma execute_crewai_get_json_raises (w : world) (e : exn) :
  App.execute_crewai w (Raise e) = Ret (App.error_result (exn_str e), 500).
Proof. reflexivity. Qed.

End Handler.

Section JsonReading.

Lemma read_escape_char (c : ascii) (rest : string) :
  read_body Plain (Json.escape_char c ++ rest) = push c (read_body Plain rest).
Proof.
  destruct c as [[] [] [] [] [] [] [] []]; reflexivity.
Qed.

Lemma read_escape (s rest : string) :
  read_body Plain (Json.escape s ++ String Json.dquote rest) = Some (s, rest).
Proof.
  induction s as [|c s IH]; [reflexivity|].
  simpl Json.escape. rewrite append_assoc, read_escape_char, IH. reflexivity.
Qed.

Lemma read_encode_str (s rest : string) :
  read_string (Json.encode_str s ++ rest) = Some (s, rest).
Proof.
  unfold Json.encode_str. simpl. rewrite append_assoc. apply read_escape.
Qed.




End JsonReading.

Section CommandLine.

Lemma crew_main_two_args (w : world) (script topic text : string) :
  Crew.generate_video_scenes w topic = Ret text ->
  Crew.main w [script; topic] = Crew.CliRun [text] 0.
Proof.
  intros H. unfold Crew.main. cbn [length Nat.eqb negb nth]. now rewrite H.
Qed.

Lemma crew_main_usage (w : world) (argv : list string) :
  length argv <> 2 -> Crew.main w argv = Crew.CliRun [Crew.usage] 1.
Proof.
  intros Hlen. unfold Crew.main.
  destruct (Nat.eqb_spec (length argv) 2) as [E|_]; [contradiction|].
  reflexivity.
Qed.

End CommandLine.

Section JsonText.

Example dumps_error_object :
  Json.dumps None (Crew.error_object "boom")
  = ("{" ++ dq ++ "error" ++ dq ++ ": " ++ dq ++ "boom" ++ dq ++ "}")%string.
Proof. reflexivity. Qed.

Example dumps_success_object :
  Json.dumps (Some 4) (Crew.success_object "sea" ["Scene 1"; "A wave"])
  = ("{" ++ nls
     ++ "    " ++ dq ++ "topic" ++ dq ++ ": " ++ dq ++ "sea" ++ dq ++ "," ++ nls
     ++ "    " ++ dq ++ "scenes" ++ dq ++ ": [" ++ nls
     ++ "        " ++ dq ++ "Scene 1" ++ dq ++ "," ++ nls
     ++ "        " ++ dq ++ "A wave" ++ dq ++ nls
     ++ "    ]" ++ nls
     ++ "}")%string.
Proof. reflexivity. Qed.

Example dumps_escapes :
  Json.dumps None (PStr ("a" ++ dq ++ "b" ++ nls))
  = (dq ++ "a\" ++ dq ++ "b\n" ++ dq)%string.
Proof. reflexivity. Qed.

End JsonText.

(** * The claims *)

(** C1: the example text of the specification parses into exactly two
    records, the first with description "A sunrise over mountains" and the
    three elements sun, peak, fog, the second with description
    "A city street" and the two elements car, crowd; the generation routine
    returns them when the service replies with that text. *)
Theorem C1_example_parses_to_two_scenes :
  App.parse_scenes example_text
  = Ret [ [("number", PStr "Scene 1");
           ("description", PStr "A sunrise over mountains");
           ("elements", PList [PStr "sun"; PStr "peak"; PStr "fog"])];
          [("number", PStr "Scene 2");
           ("description", PStr "A city street");
           ("elements", PList [PStr "car"; PStr "crowd"])] ]
  /\ App.generate_video_scenes (replying_world example_text) (PStr "sunrise")
     = Ret (App.success_result (PStr "sunrise") example_scenes)
  /\ length example_scenes = 2.
Proof.
  split; [|split].
  - vm_compute. reflexivity.
  - vm_compute. reflexivity.
  - reflexivity.
Qed.

(** C2: for every text the parser returns one record per line that, once
    stripped, begins with "scene" in any letter case.  The records' numbers
    are those header lines in order; each record is built from its header
    and from exactly the lines between that header and the next one, lines
    before the first header belonging to no record; and a header line stores
    the record in progress before it opens the next. *)
Theorem C2_one_record_per_header_line (text : string) :
  let lines := normal_lines text in
  App.parse_scenes text
  = Ret (map (fun b => to_dict (record_of (fst b) (snd b))) (blocks lines))
  /\ map fst (blocks lines) = filter is_header (map strip (split nl text))
  /\ length (blocks lines)
     = length (filter (fun raw => is_header (strip raw)) (split nl text))
  /\ lines = body_of lines ++ flat_map block_lines (blocks lines)
  /\ Forall non_header (body_of lines)
  /\ Forall well_formed_block (blocks lines)
  /\ (forall (scenes : list dict) (current_scene : dict) (line : string),
        is_header line = true ->
        App.process_line (scenes, current_scene) line
        = Ret (App.flush (scenes, current_scene), App.new_scene line)).
Proof.
  intros lines.
  assert (Hh : map fst (blocks lines)
               = filter is_header (map strip (split nl text))).
  { subst lines. unfold normal_lines. now rewrite blocks_headers, normal_headers. }
  split; [|split; [exact Hh|split]].
  - rewrite parse_scenes_refines. unfold Spec.parse. now rewrite map_map.
  - rewrite <- (length_map fst), Hh.
    clear. induction (split nl text) as [|l ls IH]; simpl; [reflexivity|].
    destruct (is_header (strip l)); simpl; now rewrite IH.
  - split; [apply lines_decompose|].
    split; [apply body_of_non_header|].
    split; [apply blocks_well_formed|].
    intros scenes current_scene line H. now apply process_line_header.
Qed.

(** C2 at work: a header line in another letter case stores the record in
    progress and opens the next. *)
Lemma C2_one_record_per_header_line_witness :
  is_header "SCENE 2" = true
  /\ App.process_line ([], App.new_scene "Scene 1") "SCENE 2"
     = Ret ([App.new_scene "Scene 1"], App.new_scene "SCENE 2").
Proof.
  split; [reflexivity|].
  exact (proj2 (proj2 (proj2 (proj2 (proj2 (proj2
           (C2_one_record_per_header_line example_text))))))
           [] (App.new_scene "Scene 1") "SCENE 2" eq_refl).
Defined.

(** The failure the model would show if a field of the empty initial record
    were read. *)
Example getitem_empty_raises :
  getitem [] "description" = Raise (Exn KeyError "'description'").
Proof. reflexivity. Qed.

(** C3, refuted as stated: a text whose first non-blank line is no header
    parses without failure, and so does every text. *)
Lemma C3_no_failure_before_first_header :
  (normal_lines preamble_text
   = ["Here is your breakdown"; "Scene 1"; "Opening shot"]
   /\ is_header "Here is your breakdown" = false
   /\ App.parse_scenes preamble_text
      = Ret [[("number", PStr "Scene 1");
              ("description", PStr "Opening shot");
              ("elements", PList [])]])
  /\ ~ (exists (text l : string) (rest : list string) (e : exn),
          normal_lines text = l :: rest
          /\ is_header l = false
          /\ App.parse_scenes text = Raise e).
Proof.
  split.
  - repeat split; vm_compute; reflexivity.
  - intros (text & l & rest & e & _ & _ & H).
    rewrite parse_scenes_refines in H. discriminate H.
Qed.

(** C3, amended: when the first non-blank line of a text is not a header,
    the guard [elif current_scene:] is false for the empty initial record,
    the line leaves the loop state as it is with no field read, and the
    parser returns the records of the lines after it. *)
Theorem C3_lines_before_first_header_are_skipped
        (text l : string) (rest : list string) :
  normal_lines text = l :: rest ->
  is_header l = false ->
  truthy_dict [] = false
  /\ App.process_line ([], []) l = Ret ([], [])
  /\ App.parse_scenes text = Ret (map to_dict (map block_record (blocks rest))).
Proof.
  intros Hl Hh. split; [reflexivity|]. split.
  - now apply process_line_preamble.
  - rewrite parse_scenes_refines. unfold Spec.parse. rewrite Hl. simpl.
    now rewrite Hh.
Qed.

(** C3 amended, at the text "Here is your breakdown / Scene 1 / Opening
    shot". *)
Lemma C3_lines_before_first_header_are_skipped_witness :
  App.process_line ([], []) "Here is your breakdown" = Ret ([], [])
  /\ App.parse_scenes preamble_text
     = Ret (map to_dict (map block_record (blocks ["Scene 1"; "Opening shot"]))).
Proof.
  exact (proj2 (C3_lines_before_first_header_are_skipped preamble_text
                  "Here is your breakdown" ["Scene 1"; "Opening shot"]
                  eq_refl eq_refl)).
Defined.

(** C4, refuted as stated: on the same topic and the same reply the CLI
    routine returns a JSON text of the reply's lines, the HTTP routine a dict
    of parsed records; the former is neither the latter nor its JSON text. *)
Lemma C4_cli_result_differs_from_http_result :
  App.generate_video_scenes (replying_world example_text) (PStr "sunrise")
  = Ret example_http_result
  /\ Crew.generate_video_scenes (replying_world example_text) "sunrise"
     = Ret example_cli_text
  /\ PStr example_cli_text <> example_http_result
  /\ example_cli_text <> Json.dumps (Some 4) example_http_result
  /\ example_cli_text <> Json.dumps None example_http_result
  /\ Crew.success_object "sunrise" example_lines <> example_http_result.
Proof.
  split; [vm_compute; reflexivity|].
  split; [vm_compute; reflexivity|].
  split; [discriminate|].
  split; [apply String.eqb_neq; vm_compute; reflexivity|].
  split; [apply String.eqb_neq; vm_compute; reflexivity|].
  discriminate.
Qed.

(** C4, amended: the CLI has a generation routine of its own.  When the
    credential is set and the service answers both requests with the same
    content, the HTTP routine returns the dict with status "success", the
    topic and the parsed records, the CLI routine returns the JSON text
    (indent 4) of the dict with the topic and the stripped lines of the
    reply, every record's number is one of those lines, and the CLI prints
    its routine's text and ends with status 0. *)
Theorem C4_two_generation_routines
        (w : world) (script topic content : string)
        (others others' : list (option string)) :
  truthy_env (getenv w "OPENAI_API_KEY") = true ->
  openai_init w (getenv w "OPENAI_API_KEY") = None ->
  chat_create w (App.request_for (PStr topic))
  = Ret (Completion (Some content :: others)) ->
  chat_create w (Crew.request_for topic)
  = Ret (Completion (Some content :: others')) ->
  let cli_text :=
    Json.dumps (Some 4)
      (PDict [("topic", PStr topic);
              ("scenes", PList (map PStr (Crew.scene_lines (strip content))))]) in
  App.generate_video_scenes w (PStr topic)
  = Ret (PDict [("status", PStr "success");
                ("topic", PStr topic);
                ("scenes", PList (map PDict (map to_dict (Spec.parse content))))])
  /\ Crew.generate_video_scenes w topic = Ret cli_text
  /\ incl (map number (Spec.parse content)) (Crew.scene_lines (strip content))
  /\ Crew.main w [script; topic] = Crew.CliRun [cli_text] 0.
Proof.
  intros Hkey Hinit Hhttp Hcli cli_text.
  assert (Ecli : Crew.generate_video_scenes w topic = Ret cli_text).
  { unfold Crew.generate_video_scenes, Crew.generate_try, Crew.get_openai_client.
    rewrite Hkey, Hinit, Hcli. reflexivity. }
  split.
  - unfold App.generate_video_scenes, App.generate_try.
    rewrite Hhttp. cbn [bind choices first_item content_strip].
    change (App.parse_lines (split nl (strip content)))
      with (App.parse_scenes content).
    rewrite parse_scenes_refines. reflexivity.
  - split; [exact Ecli|]. split; [apply parse_numbers_incl|].
    now apply crew_main_two_args.
Qed.

(** C4 amended, in a world that answers the example text. *)
Lemma C4_two_generation_routines_witness :
  App.generate_video_scenes (replying_world example_text) (PStr "sunrise")
  = Ret (PDict [("status", PStr "success");
                ("topic", PStr "sunrise");
                ("scenes",
                 PList (map PDict (map to_dict (Spec.parse example_text))))])
  /\ Crew.main (replying_world example_text) ["crew.py"; "sunrise"]
     = Crew.CliRun
         [Json.dumps (Some 4)
            (PDict [("topic", PStr "sunrise");
                    ("scenes",
                     PList (map PStr (Crew.scene_lines (strip example_text))))])]
         0.
Proof.
  pose proof (C4_two_generation_routines (replying_world example_text)
                "crew.py" "sunrise" example_text [] []
                eq_refl eq_refl eq_refl eq_refl) as (Hhttp & _ & _ & Hcli).
  split; [exact Hhttp | exact Hcli].
Defined.



(** C6, refuted as stated: with no credential the CLI routine fails inside
    its [try] block and returns the JSON text of a dict whose only key is
    "error", which is not the status and message shape. *)
Lemma C6_cli_error_is_not_uniform :
  Crew.generate_try keyless_world "sunrise"
  = Raise (Exn ValueError Crew.key_missing_message)
  /\ Crew.generate_video_scenes keyless_world "sunrise"
     = Ret (Json.dumps None (PDict [("error", PStr Crew.key_missing_message)]))
  /\ ~ uniform_error_text
         (Json.dumps None (PDict [("error", PStr Crew.key_missing_message)]))
  /\ ~ uniform_error
         (PStr (Json.dumps None (PDict [("error", PStr Crew.key_missing_message)]))).
Proof.
  split; [reflexivity|]. split; [reflexivity|]. split.
  - intros [[n|] [message H]]; vm_compute in H; discriminate H.
  - intros [message H]. discriminate H.
Qed.

(** C6, amended: neither routine lets an exception reach its caller.  The
    HTTP routine (and [main] around it) turns an exception [e] of its [try]
    block into the dict with status "error" and message [str(e)]; its [try]
    block fails only when the service call or the reading of its reply
    fails.  The CLI routine turns [e] into the JSON text of a dict with the
    single key "error", holding [str(e)] for a [ValueError] and
    "An error occurred: " followed by [str(e)] otherwise. *)
Theorem C6_failures_are_caught (w : world) (topic : pyval) (cli_topic : string) :
  (exists result : pyval,
      App.generate_video_scenes w topic = Ret result
      /\ App.main w topic = Ret result
      /\ forall e : exn,
           App.generate_try w topic = Raise e ->
           reply_text (chat_create w (App.request_for topic)) = Raise e
           /\ result = PDict [("status", PStr "error");
                              ("message", PStr (exn_str e))])
  /\ (exists text : string,
        Crew.generate_video_scenes w cli_topic = Ret text
        /\ forall e : exn,
             Crew.generate_try w cli_topic = Raise e ->
             text = Json.dumps None
                      (PDict [("error",
                               PStr (if is_ValueError e then exn_str e
                                     else ("An error occurred: " ++ exn_str e)%string))])).
Proof.
  split.
  - destruct (app_generate_total w topic) as (r & Hr & Hm & Hcase).
    exists r. split; [exact Hr|]. split; [exact Hm|]. intros e He.
    pose proof (app_generate_try_cases w topic) as C. rewrite He in C.
    split; [exact C|].
    destruct Hcase as [(e' & He' & ->) | (scenes & Hok & _)].
    + rewrite He in He'. now injection He' as <-.
    + rewrite He in Hok. discriminate Hok.
  - pose proof (crew_generate_cases w cli_topic) as C.
    destruct (Crew.generate_try w cli_topic) as [text|e].
    + exists text. split; [apply C|]. intros e He. discriminate He.
    + eexists. split; [exact C|]. intros e' He'. now injection He' as <-.
Qed.

(** C6 amended, in a world whose service cannot be reached. *)
Lemma C6_failures_are_caught_witness :
  App.generate_video_scenes offline_world (PStr "sunrise")
  = Ret (PDict [("status", PStr "error"); ("message", PStr "Connection error.")])
  /\ Crew.generate_video_scenes offline_world "sunrise"
     = Ret (Json.dumps None
              (PDict [("error", PStr "An error occurred: Connection error.")])).
Proof.
  destruct (C6_failures_are_caught offline_world (PStr "sunrise") "sunrise")
    as [(r & Hr & _ & Hcase) (t & Ht & Hcase')].
  split.
  - rewrite Hr. f_equal.
    apply (Hcase (Exn (OtherException "APIConnectionError" false)
                    "Connection error.")). reflexivity.
  - rewrite Ht. f_equal.
    apply (Hcase' (Exn (OtherException "APIConnectionError" false)
                     "Connection error.")). reflexivity.
Defined.

(** C7, where the code departs from it: a body that is a non-empty JSON
    array has no topic field, yet the handler answers 500, with the text of
    the [AttributeError] that [data.get] raised. *)
Theorem C7_array_body_answers_500 (w : world) :
  App.execute_crewai w (Ret (PList [PInt 1]))
  = Ret (PDict [("status", PStr "error");
                ("message", PStr "'list' object has no attribute 'get'")],
         500).
Proof. reflexivity. Qed.

(** C8: with no OPENAI_API_KEY in the environment, the server script ends
    with exit status 1 and never starts the server, and the CLI routine
    catches the [ValueError] of [get_openai_client] and returns the JSON text
    of the error, which the CLI prints. *)
Theorem C8_missing_credential (w : world) (script topic : string) :
  getenv w "OPENAI_API_KEY" = None ->
  exit_status (App.script w) = Some 1%Z
  /\ (forall port : pyval, App.script w <> RunsServer port)
  /\ Crew.get_openai_client w = Raise (Exn ValueError Crew.key_missing_message)
  /\ Crew.generate_video_scenes w topic
     = Ret (Json.dumps None (PDict [("error", PStr Crew.key_missing_message)]))
  /\ Crew.main w [script; topic]
     = Crew.CliRun
         [Json.dumps None (PDict [("error", PStr Crew.key_missing_message)])] 0.
Proof.
  intros Hkey.
  assert (Hs : forall port, App.script w <> RunsServer port
                            /\ exit_status (App.script w) = Some 1%Z).
  { intros port. unfold App.script. rewrite Hkey.
    destruct (openai_init w None); simpl; split; congruence. }
  split; [apply (Hs PNone)|]. split; [intros port; apply (Hs port)|].
  assert (Ht : truthy_env (getenv w "OPENAI_API_KEY") = false)
    by now rewrite Hkey.
  destruct (crew_missing_key w topic Ht) as [Hc Hg].
  split; [exact Hc|]. split; [exact Hg|].
  now apply crew_main_two_args.
Qed.

(** C8 in two worlds with no credential: one whose client library refuses
    to build a client, so that the script dies at line 21, and one whose
    library builds it, so that the guard of line 178 exits. *)
Lemma C8_missing_credential_witness :
  getenv keyless_world "OPENAI_API_KEY" = None
  /\ exit_status (App.script keyless_world) = Some 1%Z
  /\ App.script lenient_keyless_world = Exits 1
  /\ exit_status (App.script lenient_keyless_world) = Some 1%Z
  /\ Crew.generate_video_scenes keyless_world "sunrise"
     = Ret (Json.dumps None (PDict [("error", PStr Crew.key_missing_message)])).
Proof.
  pose proof (C8_missing_credential keyless_world "crew.py" "sunrise" eq_refl)
    as (Hexit & _ & _ & Hgen & _).
  pose proof (C8_missing_credential lenient_keyless_world "crew.py" "sunrise"
                eq_refl) as (Hexit' & _).
  split; [reflexivity|]. split; [exact Hexit|]. split; [reflexivity|].
  split; [exact Hexit' | exact Hgen].
Defined.

(** C9: the CLI prints the usage line and exits with status 1 unless it is
    given exactly one argument after the script name; with exactly one, it
    prints the text its generation routine returns, which is JSON text, and
    ends with status 0. *)
Theorem C9_cli_argument_count (w : world) (argv : list string) :
  (length argv <> 2 ->
   Crew.main w argv = Crew.CliRun ["Usage: python crew.py <topic>"] 1)
  /\ (forall script topic : string,
        argv = [script; topic] ->
        exists text : string,
          Crew.generate_video_scenes w topic = Ret text
          /\ (exists indent value, text = Json.dumps indent value)
          /\ Crew.main w argv = Crew.CliRun [text] 0).
Proof.
  split.
  - apply crew_main_usage.
  - intros script topic ->.
    destruct (crew_generate_total w topic) as (text & Hgen & Hjson).
    exists text. split; [exact Hgen|]. split; [exact Hjson|].
    now apply crew_main_two_args.
Qed.

(** C9 with no argument, with two, and with exactly one. *)
Lemma C9_cli_argument_count_witness :
  Crew.main (replying_world example_text) ["crew.py"]
  = Crew.CliRun ["Usage: python crew.py <topic>"] 1
  /\ Crew.main (replying_world example_text) ["crew.py"; "sun"; "rise"]
     = Crew.CliRun ["Usage: python crew.py <topic>"] 1
  /\ exists text : string,
       Crew.main (replying_world example_text) ["crew.py"; "sunrise"]
       = Crew.CliRun [text] 0.
Proof.
  split; [|split].
  - apply (proj1 (C9_cli_argument_count (replying_world example_text)
                    ["crew.py"])). discriminate.
  - apply (proj1 (C9_cli_argument_count (replying_world example_text)
                    ["crew.py"; "sun"; "rise"])). discriminate.
  - destruct (proj2 (C9_cli_argument_count (replying_world example_text)
                       ["crew.py"; "sunrise"]) "crew.py" "sunrise" eq_refl)
      as (text & _ & _ & Hmain).
    exists text. exact Hmain.
Defined.

(** C10: every record of the parser's output has exactly the fields number,
    description and elements, in the order of their creation: number is a
    stripped line of the text that begins with "scene", description a string
    and elements a list of strings; and every result of the generation
    routine is the error dict or a success dict whose records all have that
    shape. *)
Theorem C10_scene_records_have_three_fields
        (w : world) (topic : pyval) (text : string) :
  (exists scenes : list dict,
      App.parse_scenes text = Ret scenes
      /\ Forall (fun d =>
           exists (header description : string) (elements : list string),
             d = [("number", PStr header);
                  ("description", PStr description);
                  ("elements", PList (map PStr elements))]
             /\ map fst d = ["number"; "description"; "elements"]
             /\ is_header header = true
             /\ In header (map strip (split nl text))) scenes)
  /\ (exists result : pyval,
        App.generate_video_scenes w topic = Ret result
        /\ ((exists message : string,
               result = PDict [("status", PStr "error");
                               ("message", PStr message)])
            \/ (exists scenes : list dict,
                  result = PDict [("status", PStr "success");
                                  ("topic", topic);
                                  ("scenes", PList (map PDict scenes))]
                  /\ Forall scene_shape scenes))).
Proof.
  split.
  - exists (map to_dict (Spec.parse text)).
    split; [apply parse_scenes_refines|].
    unfold Spec.parse. rewrite map_map. apply Forall_forall. intros d Hin.
    apply in_map_iff in Hin. destruct Hin as [[h body] [Hd Hin]]. subst d.
    exists (number (block_record (h, body))),
           (description (block_record (h, body))),
           (elements (block_record (h, body))).
    split; [reflexivity|]. split; [reflexivity|].
    unfold block_record. simpl fst. simpl snd. rewrite record_of_number.
    assert (Hf : In h (filter is_header (map strip (split nl text)))).
    { unfold normal_lines in Hin. rewrite <- normal_headers, <- blocks_headers.
      apply in_map_iff. now exists (h, body). }
    apply filter_In in Hf. tauto.
  - destruct (app_generate_total w topic) as (r & Hr & _ & Hcase).
    exists r. split; [exact Hr|].
    destruct Hcase as [(e & _ & ->) | (scenes & _ & Hs & ->)].
    + left. now exists (exn_str e).
    + right. now exists scenes.
Qed.

(** * Further properties of the code *)

Section Trimming.

Lemma rstrip_idempotent (s : string) : rstrip (rstrip s) = rstrip s.
Proof.
  induction s as [|c s IH]; [reflexivity|].
  destruct (rstrip_cons c s) as [E | (_ & _ & E)]; rewrite E; [|reflexivity].
  simpl. rewrite IH. simpl in E. exact E.
Qed.

Lemma lstrip_head (s : string) :
  lstrip s = EmptyString
  \/ exists c r, lstrip s = String c r /\ is_space c = false.
Proof.
  induction s as [|c s IH]; [now left|].
  simpl. destruct (is_space c) eqn:Hc; [exact IH|].
  right. now exists c, s.
Qed.

Lemma rstrip_head (c : ascii) (r : string) :
  is_space c = false -> rstrip (String c r) = String c (rstrip r).
Proof.
  intros Hc. simpl. rewrite Hc. now destruct (rstrip r).
Qed.

Lemma strip_idempotent (s : string) : strip (strip s) = strip s.
Proof.
  unfold strip. destruct (lstrip_head s) as [E | (c & r & E & Hc)]; rewrite E.
  - reflexivity.
  - rewrite (rstrip_head c r Hc). simpl lstrip. rewrite Hc.
    rewrite <- (rstrip_head c r Hc). apply rstrip_idempotent.
Qed.

Lemma strip_trimmed (s : string) : trimmed (strip s).
Proof. apply strip_idempotent. Qed.

Lemma normal_trimmed (lines : list string) : Forall trimmed (normal lines).
Proof.
  apply Forall_forall. intros l Hin. unfold normal in Hin.
  apply filter_In in Hin. destruct Hin as [Hin _].
  apply in_map_iff in Hin. destruct Hin as [raw [<- _]]. apply strip_trimmed.
Qed.

Lemma normal_map_strip (lines : list string) :
  normal (map strip lines) = normal lines.
Proof.
  unfold normal. rewrite map_map. f_equal.
  apply map_ext. intros l. apply strip_idempotent.
Qed.

Lemma normal_drop_blank (lines : list string) :
  normal (filter (fun l => nonempty (strip l)) lines) = normal lines.
Proof.
  unfold normal. induction lines as [|l ls IH]; [reflexivity|].
  simpl. destruct (nonempty (strip l)) eqn:Hn; simpl; rewrite ?Hn, IH; reflexivity.
Qed.

End Trimming.

Section ParserFacts.

Lemma parse_lines_normal (lines lines' : list string) :
  normal lines = normal lines' -> App.parse_lines lines = App.parse_lines lines'.
Proof. intros H. now rewrite !parse_lines_refines, H. Qed.

Lemma parse_scenes_lines (content : string) :
  App.parse_scenes content = App.parse_lines (split nl content).
Proof.
  unfold App.parse_scenes. apply parse_lines_normal. apply normal_split_strip.
Qed.

Lemma body_of_incl (ls : list string) : incl (body_of ls) ls.
Proof.
  induction ls as [|l ls IH]; simpl; [easy|].
  destruct (is_header l); [intros x []|].
  intros x [<- | Hx]; [now left | right; now apply IH].
Qed.

Lemma blocks_incl (ls : list string) (h : string) (body : list string) :
  In (h, body) (blocks ls) -> In h ls /\ incl body ls.
Proof.
  induction ls as [|l ls IH]; simpl; [easy|].
  destruct (is_header l).
  - intros [E | Hin].
    + injection E as <- <-. split; [now left|].
      intros x Hx. right. now apply body_of_incl.
    + destruct (IH Hin) as [H1 H2]. split; [now right|].
      intros x Hx. right. now apply H2.
  - intros Hin. destruct (IH Hin) as [H1 H2]. split; [now right|].
    intros x Hx. right. now apply H2.
Qed.

Lemma apply_line_trimmed (r : scene) (l : string) :
  trimmed l -> trimmed_record r -> trimmed_record (apply_line r l).
Proof.
  intros Hl (Hn & Hd & He). unfold apply_line.
  destruct (key_value l) as [[k v]|].
  - destruct (String.eqb _ _).
    + split; [exact Hn|]. split; [apply strip_trimmed | exact He].
    + destruct (String.eqb _ _); [|now repeat split].
      split; [exact Hn|]. split; [exact Hd|].
      apply Forall_forall. intros e Hin. apply in_map_iff in Hin.
      destruct Hin as [x [<- _]]. apply strip_trimmed.
  - destruct (nonempty (description r)); now repeat split.
Qed.

Lemma record_of_trimmed (h : string) (body : list string) :
  trimmed h -> Forall trimmed body -> trimmed_record (record_of h body).
Proof.
  intros Hh Hb. unfold record_of.
  assert (G : forall r, trimmed_record r ->
                        trimmed_record (fold_left apply_line body r)).
  { induction Hb as [|l body Hl Hb IH]; intros r Hr; simpl; [exact Hr|].
    apply IH. now apply apply_line_trimmed. }
  apply G. split; [exact Hh|]. split; [reflexivity | constructor].
Qed.

Lemma blocks_nil (ls : list string) :
  blocks ls = [] <-> Forall non_header ls.
Proof.
  induction ls as [|l ls IH]; simpl; [split; [constructor | reflexivity]|].
  destruct (is_header l) eqn:H.
  - split; [discriminate|]. intros F. inversion F as [|? ? Hl _].
    unfold non_header in Hl. congruence.
  - rewrite IH. split; [now constructor | now inversion 1].
Qed.

Lemma normal_non_header (lines : list string) :
  Forall non_header (normal lines)
  <-> Forall (fun raw => startswith (lower (strip raw)) "scene" = false) lines.
Proof.
  unfold normal. induction lines as [|l ls IH]; simpl.
  - split; constructor.
  - destruct (nonempty (strip l)) eqn:Hn.
    + split; intros F; inversion F; subst; constructor; try tauto.
    + rewrite IH. split; [|now inversion 1].
      intros F. constructor; [|exact F].
      destruct (startswith (lower (strip l)) "scene") eqn:Hh; [|reflexivity].
      apply header_nonempty in Hh. congruence.
Qed.

End ParserFacts.

(** X1: blank lines and indentation never change what the parser returns:
    the [strip()] of the whole reply, the white space around each line and
    the lines made of white space only can all be dropped. *)
Theorem parser_ignores_blank_lines_and_indentation
        (content : string) (lines : list string) :
  App.parse_scenes content = App.parse_lines (split nl content)
  /\ App.parse_scenes (strip content) = App.parse_scenes content
  /\ App.parse_lines (map strip lines) = App.parse_lines lines
  /\ App.parse_lines (filter (fun l => nonempty (strip l)) lines)
     = App.parse_lines lines.
Proof.
  split; [apply parse_scenes_lines|]. split.
  - unfold App.parse_scenes. now rewrite strip_idempotent.
  - split; apply parse_lines_normal;
      [apply normal_map_strip | apply normal_drop_blank].
Qed.

(** X2: the parser returns the empty list exactly when no line of the
    reply, once stripped and lowered, starts with "scene"; the empty reply is
    one such. *)
Theorem no_header_line_no_scene (content : string) :
  (App.parse_scenes content = Ret []
   <-> Forall (fun raw => startswith (lower (strip raw)) "scene" = false)
         (split nl content))
  /\ App.parse_scenes EmptyString = Ret [].
Proof.
  split; [|reflexivity].
  rewrite parse_scenes_refines. unfold Spec.parse.
  assert (E : blocks (normal_lines content) = []
              <-> Forall (fun raw => startswith (lower (strip raw)) "scene" = false)
                    (split nl content)).
  { rewrite blocks_nil. apply normal_non_header. }
  rewrite <- E. split.
  - intros H. injection H as H.
    destruct (blocks (normal_lines content)); [reflexivity | discriminate].
  - now intros ->.
Qed.

(** X3: every string of every record the parser returns is trimmed: the
    number, the description and each element have no white space at either
    end. *)
Theorem parser_output_is_trimmed (content : string) :
  exists scenes : list dict,
    App.parse_scenes content = Ret scenes
    /\ Forall (fun d =>
         exists (header description : string) (elements : list string),
           d = [("number", PStr header);
                ("description", PStr description);
                ("elements", PList (map PStr elements))]
           /\ strip header = header
           /\ strip description = description
           /\ Forall (fun e => strip e = e) elements) scenes.
Proof.
  exists (map to_dict (Spec.parse content)).
  split; [apply parse_scenes_refines|].
  unfold Spec.parse. rewrite map_map. apply Forall_forall. intros d Hin.
  apply in_map_iff in Hin. destruct Hin as [[h body] [<- Hin]].
  apply blocks_incl in Hin. destruct Hin as [Hh Hb].
  pose proof (normal_trimmed (split nl content)) as T.
  rewrite Forall_forall in T.
  assert (R : trimmed_record (block_record (h, body))).
  { apply record_of_trimmed; [now apply T|].
    apply Forall_forall. intros x Hx. apply T. now apply Hb. }
  destruct R as (Rn & Rd & Re).
  exists (number (block_record (h, body))),
         (description (block_record (h, body))),
         (elements (block_record (h, body))).
  repeat split; assumption.
Qed.

Section LoopFacts.

Lemma for_each_app {S A : Type} (body : S -> A -> py S) (st : S)
      (xs ys : list A) :
  for_each body st (xs ++ ys)
  = (st' <- for_each body st xs ;; for_each body st' ys).
Proof.
  revert st. induction xs as [|x xs IH]; intros st; simpl; [reflexivity|].
  destruct (body st x); simpl; [apply IH | reflexivity].
Qed.

Lemma split1_shape (c : ascii) (s : string) :
  (split1 c s = [s] /\ contains c s = false)
  \/ (exists k v, split1 c s = [k; v] /\ contains c s = true).
Proof.
  induction s as [|a s IH]; simpl; [now left|].
  destruct (Ascii.eqb a c); simpl.
  - right. now exists EmptyString, s.
  - destruct IH as [[E H] | (k & v & E & H)]; rewrite E.
    + now left.
    + right. now exists (String a k), v.
Qed.

Lemma process_line_unrecognised (st : App.parser_state) (l key value : string) :
  split1 colon l = [key; value] ->
  startswith (lower l) "scene" = false ->
  strip (lower key) <> "description" ->
  strip (lower key) <> "key elements" ->
  App.process_line st l = Ret st.
Proof.
  intros Hs Hh Hd He. destruct st as [scenes cur]. unfold App.process_line.
  rewrite Hh. destruct (nonempty l); [|reflexivity].
  destruct (truthy_dict cur); [|reflexivity].
  destruct (split1_shape colon l) as [[E _] | (k & v & _ & Hc)];
    [rewrite Hs in E; discriminate E|].
  rewrite Hc, Hs. simpl.
  apply String.eqb_neq in Hd, He. now rewrite Hd, He.
Qed.

Lemma contains_lstrip (c : ascii) (s : string) :
  contains c s = false -> contains c (lstrip s) = false.
Proof.
  induction s as [|a s IH]; simpl; [easy|].
  intros H. apply orb_false_iff in H. destruct H as [Ha Hs].
  destruct (is_space a); [now apply IH|]. simpl. now rewrite Ha, Hs.
Qed.

Lemma contains_rstrip (c : ascii) (s : string) :
  contains c s = false -> contains c (rstrip s) = false.
Proof.
  induction s as [|a s IH]; simpl; [easy|].
  intros H. apply orb_false_iff in H. destruct H as [Ha Hs].
  specialize (IH Hs). destruct (rstrip s) eqn:E.
  - destruct (is_space a); simpl; [reflexivity | now rewrite Ha].
  - simpl in *. now rewrite Ha, IH.
Qed.

Lemma contains_strip (c : ascii) (s : string) :
  contains c s = false -> contains c (strip s) = false.
Proof. intros H. unfold strip. now apply contains_rstrip, contains_lstrip. Qed.

Lemma key_value_none (l : string) :
  contains colon l = false -> key_value l = None.
Proof.
  intros H. pose proof (key_value_split1 l) as K.
  destruct (key_value l) as [[k v]|]; [|reflexivity].
  destruct K as [K _]. congruence.
Qed.

Lemma fold_colon_free (ls : list string) :
  Forall (fun l => key_value l = None /\ nonempty l = true) ls ->
  forall r,
    fold_left apply_line ls r
    = if nonempty (description r) then r
      else Scene (number r) (hd EmptyString ls) (elements r).
Proof.
  induction 1 as [|l ls [Hk Hn] _ IH]; intros r; simpl.
  - destruct r as [n d e]. simpl. now destruct d.
  - rewrite IH. unfold apply_line. rewrite Hk.
    destruct (nonempty (description r)) eqn:E; cbn [description number elements].
    + now rewrite E.
    + now rewrite Hn.
Qed.

End LoopFacts.

(** X4: a line with a colon whose key is neither "description" nor
    "key elements" is dropped without a trace: the parser returns what it
    returns without that line. *)
Theorem unrecognised_key_line_is_dropped
        (before after : list string) (line key value : string) :
  split1 colon (strip line) = [key; value] ->
  startswith (lower (strip line)) "scene" = false ->
  strip (lower key) <> "description" ->
  strip (lower key) <> "key elements" ->
  App.parse_lines (before ++ line :: after) = App.parse_lines (before ++ after).
Proof.
  intros Hs Hh Hd He. unfold App.parse_lines. rewrite !for_each_app.
  destruct (for_each App.loop_body ([], []) before) as [st|e]; [|reflexivity].
  cbn [bind for_each]. unfold App.loop_body at 1.
  now rewrite (process_line_unrecognised st _ key value Hs Hh Hd He).
Qed.

(** X4 at the lines "Scene 1", "Camera: wide", "Description: Dawn". *)
Lemma unrecognised_key_line_is_dropped_witness :
  App.parse_lines (["Scene 1"] ++ "Camera: wide" :: ["Description: Dawn"])
  = App.parse_lines (["Scene 1"] ++ ["Description: Dawn"]).
Proof.
  apply (unrecognised_key_line_is_dropped ["Scene 1"] ["Description: Dawn"]
           "Camera: wide" "Camera" " wide").
  - reflexivity.
  - reflexivity.
  - discriminate.
  - discriminate.
Defined.

Section ColonFreeBlock.

Lemma parse_colon_free_block (header : string) (body : list string) :
  startswith (lower (strip header)) "scene" = true ->
  Forall (fun l => contains colon l = false
                   /\ startswith (lower (strip l)) "scene" = false) body ->
  App.parse_lines (header :: body)
  = Ret [[("number", PStr (strip header));
          ("description",
           PStr (hd EmptyString (filter nonempty (map strip body))));
          ("elements", PList [])]].
Proof.
  intros Hh Hb. rewrite parse_lines_refines.
  assert (Hn : normal (header :: body) = strip header :: normal body).
  { rewrite normal_cons. now rewrite (header_nonempty _ Hh). }
  rewrite Hn. simpl blocks. fold (is_header (strip header)).
  unfold is_header at 1. rewrite Hh.
  assert (Hnh : Forall non_header (normal body)).
  { apply normal_non_header. apply Forall_forall. intros l Hl.
    rewrite Forall_forall in Hb. now apply Hb. }
  assert (Hbody : body_of (normal body) = normal body).
  { rewrite <- (app_nil_r (normal body)) at 1.
    now rewrite (body_of_app _ _ Hnh), app_nil_r. }
  rewrite Hbody, (proj2 (blocks_nil _) Hnh). simpl map.
  unfold block_record, record_of. simpl fst. simpl snd.
  rewrite fold_colon_free; [reflexivity|].
  apply Forall_forall. intros l Hl. unfold normal in Hl.
  apply filter_In in Hl. destruct Hl as [Hin Hne]. split; [|exact Hne].
  apply in_map_iff in Hin. destruct Hin as [raw [<- Hraw]].
  rewrite Forall_forall in Hb. apply key_value_none, contains_strip.
  now apply Hb.
Qed.

End ColonFreeBlock.

(** X5: in a block whose lines after the header hold no colon, the first
    non-blank line becomes the description and every later one is dropped;
    the elements stay empty, and so does the description when there is no
    such line, whatever the header line holds after the word "scene". *)
Theorem colon_free_block (header : string) (body : list string) :
  startswith (lower (strip header)) "scene" = true ->
  Forall (fun l => contains colon l = false
                   /\ startswith (lower (strip l)) "scene" = false) body ->
  App.parse_lines (header :: body)
  = Ret [[("number", PStr (strip header));
          ("description",
           PStr (hd EmptyString (filter nonempty (map strip body))));
          ("elements", PList [])]].
Proof. exact (parse_colon_free_block header body). Qed.

(** X5 at a block of three lines. *)
Lemma colon_free_block_witness :
  App.parse_lines ["Scene 1: Sunrise"; "  A wide shot"; ""; "Birds fly"]
  = Ret [[("number", PStr "Scene 1: Sunrise");
          ("description", PStr "A wide shot");
          ("elements", PList [])]].
Proof.
  refine (eq_trans (colon_free_block "Scene 1: Sunrise"
                      ["  A wide shot"; ""; "Birds fly"] eq_refl _) eq_refl).
  repeat constructor.
Defined.

Section Truncation.

(** *** Lines of a text and of its continuation *)

Lemma split_append (a : string) :
  exists (init : list string) (p : string),
    split nl a = init ++ [p]
    /\ forall b, split nl (a ++ b) = init ++ prepend p (split nl b).
Proof.
  induction a as [|c a (init & p & Ha & Hab)].
  - exists [], EmptyString. split; [reflexivity|].
    intros b. simpl. now rewrite prepend_empty_split.
  - simpl. destruct (Ascii.eqb c nl).
    + exists (EmptyString :: init), p. split; [now rewrite Ha|].
      intros b. now rewrite Hab.
    + destruct init as [|i init].
      * exists [], (String c p). split; [now rewrite Ha|].
        intros b. rewrite Hab. simpl.
        destruct (split_cons nl b) as (h & t & E). now rewrite E.
      * exists (String c i :: init), p. split; [now rewrite Ha|].
        intros b. now rewrite Hab.
Qed.

Lemma normal_app (xs ys : list string) :
  normal (xs ++ ys) = normal xs ++ normal ys.
Proof. unfold normal. now rewrite map_app, filter_app. Qed.

(** *** A header stays a header when its line goes on *)

Lemma space_not_lowered (c : ascii) : is_space c = true -> lower_char c = c.
Proof.
  destruct c as [[] [] [] [] [] [] [] []]; intros H;
    solve [reflexivity | discriminate H].
Qed.

Lemma prefix_rstrip_append (pat x w : string) :
  (forall c, contains c pat = true -> is_space c = false) ->
  String.prefix pat (lower (rstrip x)) = true ->
  String.prefix pat (lower (rstrip (x ++ w))) = true.
Proof.
  revert x. induction pat as [|a pat IH]; intros x Hpat H.
  - now destruct (lower (rstrip (x ++ w))).
  - destruct x as [|c x]; [discriminate H|].
    destruct (rstrip_cons c x) as [E | (_ & _ & E)];
      rewrite E in H; [|discriminate H].
    simpl in H. destruct (ascii_dec a (lower_char c)) as [Ha|]; [|discriminate H].
    assert (Hc : is_space c = false).
    { destruct (is_space c) eqn:Hs; [|reflexivity].
      rewrite (space_not_lowered c Hs) in Ha. subst a.
      rewrite <- Hs. apply Hpat. simpl. now rewrite Ascii.eqb_refl. }
    change (String c x ++ w)%string with (String c (x ++ w)%string).
    rewrite (rstrip_head c _ Hc). simpl.
    destruct (ascii_dec a (lower_char c)); [|contradiction].
    apply IH; [|exact H].
    intros c' Hc'. apply Hpat. simpl. rewrite Hc'. apply orb_true_r.
Qed.

Lemma lstrip_append (p q : string) :
  lstrip p <> EmptyString -> lstrip (p ++ q) = (lstrip p ++ q)%string.
Proof.
  induction p as [|c p IH]; simpl; [congruence|].
  destruct (is_space c); [exact IH | reflexivity].
Qed.

Lemma header_goes_on (p q : string) :
  is_header (strip p) = true -> is_header (strip (p ++ q)) = true.
Proof.
  unfold is_header, startswith, strip. intros H.
  assert (Hp : lstrip p <> EmptyString).
  { intros E. rewrite E in H. discriminate H. }
  rewrite (lstrip_append p q Hp).
  apply prefix_rstrip_append; [|exact H].
  intros c Hc. cbn [contains] in Hc.
  repeat (apply orb_true_iff in Hc; destruct Hc as [Hc | Hc];
          [apply Ascii.eqb_eq in Hc; subst c; reflexivity|]).
  discriminate Hc.
Qed.

(** *** Blocks of a list of lines and of its continuation *)

Lemma body_of_keeps (xs ys : list string) :
  blocks xs <> [] -> body_of (xs ++ ys) = body_of xs.
Proof.
  induction xs as [|l xs IH]; simpl; [congruence|].
  destruct (is_header l); [reflexivity|]. intros H. now rewrite IH.
Qed.

Lemma blocks_continue (xs ys : list string) :
  exists tail, blocks (xs ++ ys) = removelast (blocks xs) ++ tail.
Proof.
  induction xs as [|l xs (tail & IH)]; [now exists (blocks ys)|].
  simpl. destruct (is_header l); [|now exists tail].
  destruct (blocks xs) as [|b bs] eqn:E.
  - now eexists.
  - rewrite body_of_keeps by congruence. rewrite IH.
    exists tail. reflexivity.
Qed.

Lemma removelast_cons {A : Type} (a : A) (l : list A) :
  l <> [] -> removelast (a :: l) = a :: removelast l.
Proof. destruct l; [congruence | reflexivity]. Qed.

Lemma blocks_snoc_nil (xs : list string) (n : string) :
  non_header n -> (blocks (xs ++ [n]) = [] <-> blocks xs = []).
Proof.
  intros Hn. rewrite !blocks_nil, Forall_app. split; [tauto|].
  intros H. split; [exact H | now constructor].
Qed.

Lemma blocks_snoc_line (xs : list string) (n : string) :
  non_header n -> removelast (blocks (xs ++ [n])) = removelast (blocks xs).
Proof.
  intros Hn. induction xs as [|l xs IH]; cbn [app blocks].
  - now rewrite Hn.
  - destruct (is_header l); [|exact IH].
    destruct (blocks xs) as [|b bs] eqn:E.
    + now rewrite (proj2 (blocks_snoc_nil xs n Hn) E).
    + assert (E' : blocks (xs ++ [n]) <> []).
      { intros E'. apply (blocks_snoc_nil xs n Hn) in E'. congruence. }
      rewrite body_of_keeps by congruence.
      rewrite (removelast_cons _ _ E'), IH, ?E. reflexivity.
Qed.

Lemma body_of_to_header (xs zs : list string) (z : string) :
  is_header z = true -> body_of (xs ++ z :: zs) = body_of xs.
Proof.
  intros Hz. induction xs as [|x xs IH]; cbn [app body_of].
  - now rewrite Hz.
  - destruct (is_header x); [reflexivity | now rewrite IH].
Qed.

Lemma blocks_snoc_header (xs ys : list string) (h h' : string) :
  is_header h = true -> is_header h' = true ->
  exists tail,
    blocks (xs ++ h' :: ys) = removelast (blocks (xs ++ [h])) ++ tail.
Proof.
  intros Hh Hh'. induction xs as [|l xs (tail & IH)]; cbn [app blocks].
  - rewrite Hh, Hh'. cbn [removelast blocks app]. now eexists.
  - destruct (is_header l); [|now exists tail].
    rewrite (body_of_to_header xs ys h' Hh'), (body_of_to_header xs [] h Hh).
    assert (E : blocks (xs ++ [h]) <> []).
    { intros E. apply blocks_nil in E. apply Forall_app in E.
      destruct E as [_ E]. inversion E as [|? ? Hn _].
      unfold non_header in Hn. congruence. }
    rewrite (removelast_cons _ _ E), IH. exists tail. reflexivity.
Qed.

Lemma removelast_map {A B : Type} (f : A -> B) (l : list A) :
  removelast (map f l) = map f (removelast l).
Proof.
  induction l as [|x l IH]; [reflexivity|].
  simpl. destruct l; [reflexivity|]. simpl in *. now rewrite IH.
Qed.

Lemma normal_lines_continue (a b : string) :
  exists tail,
    blocks (normal_lines (a ++ b))
    = removelast (blocks (normal_lines a)) ++ tail.
Proof.
  unfold normal_lines.
  destruct (split_append a) as (init & p & Ha & Hab).
  rewrite Ha, (Hab b). destruct (split_cons nl b) as (q & rest & Eb).
  rewrite Eb. cbn [prepend]. rewrite !normal_app.
  rewrite (normal_cons p []), (normal_cons (p ++ q) rest).
  cbn [normal map filter]. rewrite app_nil_r.
  destruct (nonempty (strip p)) eqn:Hn.
  - destruct (is_header (strip p)) eqn:Hh.
    + pose proof (header_goes_on p q Hh) as Hh'.
      rewrite (header_nonempty _ Hh'). cbn [app].
      apply (blocks_snoc_header _ _ _ _ Hh Hh').
    + rewrite (blocks_snoc_line _ _ Hh). apply blocks_continue.
  - rewrite app_nil_r. apply blocks_continue.
Qed.

End Truncation.

(** X6: cutting a reply short, at any character, costs at most the last
    record: the records parsed from the cut reply, its last one apart, are
    the first records parsed from the whole reply. *)
Theorem truncated_reply_keeps_earlier_records (reply rest : string) :
  exists (cut whole tail : list dict),
    App.parse_scenes reply = Ret cut
    /\ App.parse_scenes (reply ++ rest) = Ret whole
    /\ whole = removelast cut ++ tail.
Proof.
  destruct (normal_lines_continue reply rest) as (tail & E).
  exists (map to_dict (Spec.parse reply)),
         (map to_dict (Spec.parse (reply ++ rest))),
         (map to_dict (map block_record tail)).
  split; [apply parse_scenes_refines|].
  split; [apply parse_scenes_refines|].
  unfold Spec.parse. rewrite E, !removelast_map, !map_app. reflexivity.
Qed.

Section HandlerFacts.

Lemma handler_with_topic (w : world) (d : dict) (topic : pyval) :
  dict_lookup d "topic" = Some topic ->
  truthy topic = true ->
  (exists e, App.generate_try w topic = Raise e
             /\ App.execute_crewai w (Ret (PDict d))
                = Ret (App.error_result (exn_str e), 500))
  \/ (exists scenes,
         App.generate_try w topic = Ret (App.success_result topic scenes)
         /\ Forall scene_shape scenes
         /\ App.execute_crewai w (Ret (PDict d))
            = Ret (App.success_result topic scenes, 200)).
Proof.
  intros Hl Ht.
  assert (Hd : truthy (PDict d) = true) by (destruct d; [discriminate Hl | reflexivity]).
  pose proof (execute_crewai_on_object w (PDict d)
                (or_intror (ex_intro _ d eq_refl))) as H.
  cbv zeta in H. cbn [field] in H. rewrite Hl, Hd, Ht in H. cbn [negb] in H.
  destruct (app_generate_total w topic) as (r & _ & _ & Hcase).
  destruct Hcase as [(e & He & ->) | (scenes & Hok & Hs & ->)].
  - left. exists e. split; [exact He|]. now rewrite H, He.
  - right. exists scenes. split; [exact Hok|]. split; [exact Hs|].
    now rewrite H, Hok.
Qed.

End HandlerFacts.

(** X7: what the handler answers to a body that is absent or a JSON
    object: 400 "No data provided" when the body is false for Python (absent,
    or the empty object), 400 "Topic is required" when the object has no
    topic or a false one, and otherwise what the generation routine returns,
    with 500 when that is an error dict and 200 when it is a success dict. *)
Theorem handler_on_object_body (w : world) (data : pyval) :
  (truthy data = false ->
   App.execute_crewai w (Ret data)
   = Ret (PDict [("status", PStr "error");
                 ("message", PStr "No data provided")], 400))
  /\ (forall d : dict,
        data = PDict d -> d <> [] ->
        truthy (match dict_lookup d "topic" with
                | Some t => t
                | None => PNone
                end) = false ->
        App.execute_crewai w (Ret data)
        = Ret (PDict [("status", PStr "error");
                      ("message", PStr "Topic is required")], 400))
  /\ (forall (d : dict) (topic : pyval),
        data = PDict d ->
        dict_lookup d "topic" = Some topic ->
        truthy topic = true ->
        exists result : pyval,
          App.generate_video_scenes w topic = Ret result
          /\ ((exists message : string,
                 result = PDict [("status", PStr "error");
                                 ("message", PStr message)]
                 /\ App.execute_crewai w (Ret data) = Ret (result, 500))
              \/ (exists scenes : list dict,
                    result = PDict [("status", PStr "success");
                                    ("topic", topic);
                                    ("scenes", PList (map PDict scenes))]
                    /\ App.execute_crewai w (Ret data) = Ret (result, 200)))).
Proof.
  split; [|split].
  - intros H. unfold App.execute_crewai. cbn [bind]. now rewrite H.
  - intros d -> Hd Ht.
    pose proof (execute_crewai_on_object w (PDict d)
                  (or_intror (ex_intro _ d eq_refl))) as H.
    cbv zeta in H. cbn [field] in H. rewrite Ht in H.
    destruct d; [contradiction|]. exact H.
  - intros d topic -> Hl Ht.
    destruct (handler_with_topic w d topic Hl Ht)
      as [(e & He & Hr) | (scenes & Hok & _ & Hr)].
    + exists (App.error_result (exn_str e)). split.
      * unfold App.generate_video_scenes. now rewrite He.
      * left. exists (exn_str e). now split.
    + exists (App.success_result topic scenes). split.
      * unfold App.generate_video_scenes. now rewrite Hok.
      * right. exists scenes. now split.
Qed.

(** X7 at the empty object, at an object with an empty topic, and at an
    object with a topic in a world whose service cannot be reached. *)
Lemma handler_on_object_body_witness :
  App.execute_crewai offline_world (Ret (PDict []))
  = Ret (PDict [("status", PStr "error");
                ("message", PStr "No data provided")], 400)
  /\ App.execute_crewai offline_world (Ret (PDict [("topic", PStr "")]))
     = Ret (PDict [("status", PStr "error");
                   ("message", PStr "Topic is required")], 400)
  /\ exists result : pyval,
       App.generate_video_scenes offline_world (PStr "sea") = Ret result.
Proof.
  split; [|split].
  - apply (proj1 (handler_on_object_body offline_world (PDict []))).
    reflexivity.
  - apply (proj1 (proj2 (handler_on_object_body offline_world
                           (PDict [("topic", PStr "")])))
             [("topic", PStr "")] eq_refl); [discriminate | reflexivity].
  - destruct (proj2 (proj2 (handler_on_object_body offline_world
                              (PDict [("topic", PStr "sea")])))
                [("topic", PStr "sea")] (PStr "sea") eq_refl eq_refl eq_refl)
      as (result & Hgen & _).
    exists result. exact Hgen.
Defined.

(** X8: the handler never lets an exception out, whatever the request and
    the world: it answers with a dict and one of the codes 200, 400 and 500;
    the code is 200 exactly when the dict's status is "success", and with any
    other code the dict is the error dict with a message. *)
Theorem handler_always_answers (w : world) (get_json : py pyval) :
  exists (body : pyval) (code : nat),
    App.execute_crewai w get_json = Ret (body, code)
    /\ (code = 200 \/ code = 400 \/ code = 500)
    /\ (code = 200 <-> field body "status" = Some (PStr "success"))
    /\ (code <> 200 ->
        exists message : string,
          body = PDict [("status", PStr "error"); ("message", PStr message)]).
Proof.
  assert (Err : forall message code,
            code = 400 \/ code = 500 ->
            (code = 200 \/ code = 400 \/ code = 500)
            /\ (code = 200 <-> field (App.error_result message) "status"
                               = Some (PStr "success"))
            /\ (code <> 200 ->
                exists m, App.error_result message
                          = PDict [("status", PStr "error"); ("message", PStr m)])).
  { intros message code Hc. split; [tauto|]. split.
    - split; [intros ->; destruct Hc; discriminate | discriminate].
    - intros _. now exists message. }
  destruct get_json as [data|e].
  2:{ eexists. eexists. split; [reflexivity|]. apply Err. now right. }
  destruct (truthy data) eqn:Hd.
  2:{ exists (App.error_result "No data provided"), 400. split.
      - unfold App.execute_crewai. cbn [bind]. now rewrite Hd.
      - apply Err. now left. }
  destruct data as [| b | z | s | l | d].
  1-5: eexists; eexists; (split; [apply execute_crewai_non_object;
         [exact Hd | discriminate] | apply Err; now right]).
  destruct (dict_lookup d "topic") as [topic|] eqn:Hl.
  - destruct (truthy topic) eqn:Ht.
    + destruct (handler_with_topic w d topic Hl Ht)
        as [(e & _ & Hr) | (scenes & _ & _ & Hr)].
      * eexists. eexists. split; [exact Hr|]. apply Err. now right.
      * eexists. eexists. split; [exact Hr|]. split; [now left|].
        split; [now split|]. congruence.
    + exists (App.error_result "Topic is required"), 400. split.
      * unfold App.execute_crewai. cbn [bind method_get]. rewrite Hd, Hl.
        cbn [negb bind]. now rewrite Ht.
      * apply Err. now left.
  - exists (App.error_result "Topic is required"), 400. split.
    + unfold App.execute_crewai. cbn [bind method_get]. now rewrite Hd, Hl.
    + apply Err. now left.
Qed.

(** X9: an exception inside the handler is answered with 500 and its own
    text: a failure of [request.get_json()], and the [AttributeError] of
    [data.get] on a body that is true for Python and no JSON object, whose
    message names the body's type. *)
Theorem handler_reports_exceptions_as_500 (w : world) :
  (forall e : exn,
      App.execute_crewai w (Raise e)
      = Ret (PDict [("status", PStr "error"); ("message", PStr (exn_str e))],
             500))
  /\ (forall data : pyval,
        truthy data = true ->
        (forall d : dict, data <> PDict d) ->
        App.execute_crewai w (Ret data)
        = Ret (PDict [("status", PStr "error");
                      ("message",
                       PStr ("'" ++ type_name data
                             ++ "' object has no attribute 'get'"))],
               500)).
Proof.
  split; [reflexivity|]. intros data Ht Hd.
  rewrite (execute_crewai_non_object w data Ht Hd). unfold quote.
  cbn [String.append]. now rewrite append_assoc.
Qed.

(** X9 at the body "x", a JSON string. *)
Lemma handler_reports_exceptions_as_500_witness :
  App.execute_crewai offline_world (Ret (PStr "x"))
  = Ret (PDict [("status", PStr "error");
                ("message", PStr "'str' object has no attribute 'get'")],
         500).
Proof.
  apply (proj2 (handler_reports_exceptions_as_500 offline_world) (PStr "x"));
    [reflexivity | discriminate].
Defined.

(** X10: from the request to the answer: when the body is an object with a
    topic that is true for Python and the service replies with a text, the
    handler answers 200 with that very topic and the records the parser
    reads off the text. *)
Theorem post_topic_end_to_end
        (w : world) (d : dict) (topic : pyval) (content : string)
        (others : list (option string)) :
  dict_lookup d "topic" = Some topic ->
  truthy topic = true ->
  chat_create w (App.request_for topic)
  = Ret (Completion (Some content :: others)) ->
  exists scenes : list dict,
    App.parse_scenes content = Ret scenes
    /\ App.execute_crewai w (Ret (PDict d))
       = Ret (PDict [("status", PStr "success");
                     ("topic", topic);
                     ("scenes", PList (map PDict scenes))], 200).
Proof.
  intros Hl Ht Hc. exists (map to_dict (Spec.parse content)).
  split; [apply parse_scenes_refines|].
  assert (G : App.generate_try w topic
              = Ret (App.success_result topic (map to_dict (Spec.parse content)))).
  { unfold App.generate_try. rewrite Hc.
    cbn [bind choices first_item content_strip].
    change (App.parse_lines (split nl (strip content)))
      with (App.parse_scenes content).
    now rewrite parse_scenes_refines. }
  destruct (handler_with_topic w d topic Hl Ht)
    as [(e & He & _) | (scenes & Hok & _ & Hr)].
  - rewrite G in He. discriminate He.
  - rewrite G in Hok. injection Hok as Hs. rewrite Hr.
    unfold App.success_result. now rewrite Hs.
Qed.

(** X10 at a request for "sunrise" in a world that replies with the
    example text. *)
Lemma post_topic_end_to_end_witness :
  App.execute_crewai (replying_world example_text)
    (Ret (PDict [("topic", PStr "sunrise")]))
  = Ret (example_http_result, 200).
Proof.
  destruct (post_topic_end_to_end (replying_world example_text)
              [("topic", PStr "sunrise")] (PStr "sunrise") example_text []
              eq_refl eq_refl eq_refl) as (scenes & Hp & Hr).
  rewrite Hr. f_equal. f_equal. unfold example_http_result, App.success_result.
  assert (E : scenes = example_scenes).
  { assert (P : App.parse_scenes example_text = Ret example_scenes)
      by (vm_compute; reflexivity).
    rewrite P in Hp. now injection Hp. }
  now rewrite E.
Defined.



Section CliFacts.

Lemma in_scene_lines (x s : string) :
  In s (Crew.scene_lines x)
  <-> exists l, In l (split nl x) /\ nonempty l = true /\ strip l = s.
Proof.
  unfold Crew.scene_lines. rewrite in_map_iff. split.
  - intros (l & E & Hin). apply filter_In in Hin. exists l. tauto.
  - intros (l & Hin & Hn & E). exists l. split; [exact E|].
    apply filter_In. tauto.
Qed.

Lemma filter_scene_lines (x : string) :
  filter nonempty (Crew.scene_lines x) = normal (split nl x).
Proof.
  unfold Crew.scene_lines, normal.
  induction (split nl x) as [|l ls IH]; [reflexivity|].
  simpl. destruct (nonempty l) eqn:Hn; simpl; rewrite IH; [reflexivity|].
  destruct l; [reflexivity | discriminate Hn].
Qed.

Lemma encode_scene_list (scenes : list string) :
  Json.encode (Some 4) 1 (PList (map PStr scenes))
  = match scenes with
    | [] => "[]"
    | _ => ("[" ++ nls ++ "        " ++ items scenes ++ nls ++ "    ]")%string
    end.
Proof.
  destruct scenes as [|x xs]; [reflexivity|].
  unfold items. cbn [map Json.encode Json.newline_indent Json.item_separator
                     Json.spaces Nat.mul Nat.add String.append nls].
  rewrite map_map. cbn [Json.encode]. reflexivity.
Qed.

Lemma items_cons (x : string) (xs : list string) (rest : string) :
  (items (x :: xs) ++ rest)%string
  = (Json.encode_str x
     ++ match xs with
        | [] => rest
        | _ => ("," ++ nls ++ "        " ++ items xs ++ rest)%string
        end)%string.
Proof.
  unfold items. destruct xs as [|y ys]; [reflexivity|].
  cbn [map String.concat]. rewrite !append_assoc. reflexivity.
Qed.

Lemma items_injective (xs ys : list string) (r1 r2 : string) :
  (items xs ++ String nl r1)%string = (items ys ++ String nl r2)%string ->
  xs <> [] -> ys <> [] -> xs = ys.
Proof.
  revert ys. induction xs as [|x xs IH]; intros ys H Hx Hy; [congruence|].
  destruct ys as [|y ys]; [congruence|].
  rewrite !items_cons in H.
  pose proof (f_equal read_string H) as R. rewrite !read_encode_str in R.
  injection R as -> R. f_equal.
  destruct xs as [|x' xs], ys as [|y' ys]; try reflexivity.
  - cbn in R. discriminate R.
  - cbn in R. discriminate R.
  - apply IH; [|discriminate|discriminate].
    cbn [String.append nls] in R. now injection R.
Qed.

Lemma dumps_topic_scenes (topic : string) (v : pyval) :
  Json.dumps (Some 4) (PDict [("topic", PStr topic); ("scenes", v)])
  = (topic_prefix ++ Json.encode_str topic
     ++ "," ++ nls ++ "    " ++ Json.encode_str "scenes" ++ ": "
     ++ Json.encode (Some 4) 1 v ++ nls ++ "}")%string.
Proof.
  unfold Json.dumps, topic_prefix.
  cbn [Json.encode map String.concat Json.newline_indent Json.item_separator].
  generalize (Json.encode_str topic) as t.
  generalize (Json.encode (Some 4) 1 v) as x.
  generalize (Json.encode_str "topic") as k.
  generalize (Json.encode_str "scenes") as k'. intros k' k x t.
  cbn [Json.spaces Nat.mul Nat.add String.append nls].
  rewrite !append_assoc. cbn [String.append].
  rewrite !append_assoc. cbn [String.append]. reflexivity.
Qed.

End CliFacts.

Section CliTexts.

Lemma append_cancel (p a b : string) :
  (p ++ a)%string = (p ++ b)%string -> a = b.
Proof.
  induction p as [|c p IH]; simpl; [easy|].
  intros H. injection H as H. now apply IH.
Qed.

Lemma some_pair_eq {A B : Type} (a a' : A) (b b' : B) :
  Some (a, b) = Some (a', b') -> a = a' /\ b = b'.
Proof. intros H. now injection H. Qed.

Lemma prefix_append (p s : string) : String.prefix p (p ++ s) = true.
Proof.
  induction p as [|c p IH]; simpl; [now destruct s|].
  destruct (ascii_dec c c); [exact IH | contradiction].
Qed.

Lemma scene_list_injective (s1 s2 : list string) (r : string) :
  (Json.encode (Some 4) 1 (PList (map PStr s1)) ++ String nl r)%string
  = (Json.encode (Some 4) 1 (PList (map PStr s2)) ++ String nl r)%string ->
  s1 = s2.
Proof.
  rewrite !encode_scene_list. intros H.
  destruct s1 as [|x xs], s2 as [|y ys]; try reflexivity.
  - cbn in H. discriminate H.
  - cbn in H. discriminate H.
  - rewrite !append_assoc in H.
    apply (append_cancel "[") in H. apply (append_cancel nls) in H.
    apply (append_cancel "        ") in H.
    cbn [String.append nls] in H.
    apply (items_injective _ _ _ _ H); discriminate.
Qed.

Lemma error_text_shape (message : string) :
  Json.dumps None (Crew.error_object message)
  = (error_prefix ++ Json.encode_str message ++ "}")%string.
Proof.
  unfold Json.dumps, error_prefix, Crew.error_object.
  cbn [Json.encode map String.concat Json.newline_indent Json.item_separator].
  generalize (Json.encode_str message) as m.
  generalize (Json.encode_str "error") as k. intros k m.
  cbn [String.append]. rewrite ?append_assoc. cbn [String.append].
  rewrite ?append_assoc. cbn [String.append]. reflexivity.
Qed.

End CliTexts.

(** X12: the CLI treats an empty OPENAI_API_KEY as a missing one: the
    routine returns the text of the missing-credential error, which the CLI
    prints before ending with status 0. *)
Theorem cli_treats_empty_key_as_missing (w : world) (script topic : string) :
  getenv w "OPENAI_API_KEY" = Some EmptyString ->
  Crew.get_openai_client w = Raise (Exn ValueError Crew.key_missing_message)
  /\ Crew.generate_video_scenes w topic
     = Ret (Json.dumps None (PDict [("error", PStr Crew.key_missing_message)]))
  /\ Crew.main w [script; topic]
     = Crew.CliRun
         [Json.dumps None (PDict [("error", PStr Crew.key_missing_message)])] 0.
Proof.
  intros Hk.
  assert (Ht : truthy_env (getenv w "OPENAI_API_KEY") = false)
    by now rewrite Hk.
  destruct (crew_missing_key w topic Ht) as [Hc Hg].
  split; [exact Hc|]. split; [exact Hg|]. now apply crew_main_two_args.
Qed.

(** X12 in a world whose credential is the empty string. *)
Lemma cli_treats_empty_key_as_missing_witness :
  Crew.main empty_key_world ["crew.py"; "sea"]
  = Crew.CliRun
      [Json.dumps None (PDict [("error", PStr Crew.key_missing_message)])] 0.
Proof.
  exact (proj2 (proj2 (cli_treats_empty_key_as_missing empty_key_world
                         "crew.py" "sea" eq_refl))).
Defined.

(** X13: the scenes of the CLI are the stripped non-empty lines of the
    reply: each is trimmed; the empty-line test comes before the strip, so a
    line of white space only gives an empty scene; and without the empty
    scenes they are the lines the HTTP parser reads. *)
Theorem cli_scene_lines (scene_context : string) :
  Forall (fun s => strip s = s) (Crew.scene_lines scene_context)
  /\ length (Crew.scene_lines scene_context)
     = length (filter nonempty (split nl scene_context))
  /\ (In EmptyString (Crew.scene_lines scene_context)
      <-> exists l, In l (split nl scene_context)
                    /\ l <> EmptyString /\ strip l = EmptyString)
  /\ filter nonempty (Crew.scene_lines scene_context)
     = filter nonempty (map strip (split nl scene_context)).
Proof.
  split; [|split; [|split]].
  - apply Forall_forall. intros s Hin. apply in_scene_lines in Hin.
    destruct Hin as (l & _ & _ & <-). apply strip_idempotent.
  - unfold Crew.scene_lines. apply length_map.
  - rewrite in_scene_lines. split; intros (l & Hin & Hn & E); exists l.
    + repeat split; [exact Hin | | exact E]. now destruct l.
    + repeat split; [exact Hin | | exact E]. now destruct l.
  - apply filter_scene_lines.
Qed.

(** X14: the text the CLI routine returns on success determines the topic
    and the list of scenes: two such texts are equal only for the same topic
    and the same scenes. *)
Theorem cli_text_determines_topic_and_scenes
        (topic topic' : string) (scenes scenes' : list string) :
  Json.dumps (Some 4)
    (PDict [("topic", PStr topic); ("scenes", PList (map PStr scenes))])
  = Json.dumps (Some 4)
      (PDict [("topic", PStr topic'); ("scenes", PList (map PStr scenes'))]) ->
  topic = topic' /\ scenes = scenes'.
Proof.
  rewrite !dumps_topic_scenes. intros H.
  apply append_cancel in H.
  pose proof (f_equal read_string H) as R. rewrite !read_encode_str in R.
  apply some_pair_eq in R. destruct R as [-> R]. split; [reflexivity|].
  apply (append_cancel ",") in R. apply (append_cancel nls) in R.
  apply (append_cancel "    ") in R.
  apply (append_cancel (Json.encode_str "scenes")) in R.
  apply (append_cancel ": ") in R.
  cbn [String.append nls] in R. now apply scene_list_injective in R.
Qed.

(** X14 at two equal texts. *)
Lemma cli_text_determines_topic_and_scenes_witness :
  "sea" = "sea" /\ ["Scene 1"; "A wave"] = ["Scene 1"; "A wave"].
Proof.
  exact (cli_text_determines_topic_and_scenes "sea" "sea"
           ["Scene 1"; "A wave"] ["Scene 1"; "A wave"] eq_refl).
Defined.

(** X15: a run of the CLI with one argument ends with status 0 whether the
    generation failed or not; the printed text tells the two apart: it begins
    with the key "error" exactly when the [try] block raised, and with a line
    break and the key "topic" when it did not. *)
Theorem cli_text_tells_failure_from_success (w : world) (script topic : string) :
  exists text : string,
    Crew.generate_video_scenes w topic = Ret text
    /\ Crew.main w [script; topic] = Crew.CliRun [text] 0
    /\ (((exists e, Crew.generate_try w topic = Raise e)
         /\ startswith text error_prefix = true
         /\ startswith text topic_prefix = false)
        \/ (Crew.generate_try w topic = Ret text
            /\ startswith text topic_prefix = true
            /\ startswith text error_prefix = false)).
Proof.
  pose proof (crew_generate_cases w topic) as C.
  destruct (Crew.generate_try w topic) as [text|e] eqn:E.
  - destruct C as [Hg [scenes ->]]. eexists. split; [exact Hg|].
    split; [now apply crew_main_two_args|]. right.
    split; [reflexivity|]. unfold startswith, Crew.success_object.
    rewrite dumps_topic_scenes. split; [apply prefix_append|].
    reflexivity.
  - eexists. split; [exact C|]. split; [now apply crew_main_two_args|].
    left. split; [now exists e|]. unfold startswith, cli_error_text.
    rewrite error_text_shape. split; [apply prefix_append|].
    reflexivity.
Qed.

(** X16: a completion with no choice, or whose first choice has no content,
    is reported as an error with Python's own message, by both routines. *)
Theorem malformed_completion_is_reported
        (w : world) (topic : pyval) (cli_topic : string) :
  truthy_env (getenv w "OPENAI_API_KEY") = true ->
  openai_init w (getenv w "OPENAI_API_KEY") = None ->
  (chat_create w (App.request_for topic) = Ret (Completion []) ->
   App.generate_video_scenes w topic
   = Ret (PDict [("status", PStr "error");
                 ("message", PStr "list index out of range")]))
  /\ (forall others,
        chat_create w (App.request_for topic)
        = Ret (Completion (None :: others)) ->
        App.generate_video_scenes w topic
        = Ret (PDict [("status", PStr "error");
                      ("message",
                       PStr "'NoneType' object has no attribute 'strip'")]))
  /\ (chat_create w (Crew.request_for cli_topic) = Ret (Completion []) ->
      Crew.generate_video_scenes w cli_topic
      = Ret (Json.dumps None
               (PDict [("error",
                        PStr "An error occurred: list index out of range")])))
  /\ (forall others,
        chat_create w (Crew.request_for cli_topic)
        = Ret (Completion (None :: others)) ->
        Crew.generate_video_scenes w cli_topic
        = Ret (Json.dumps None
                 (PDict [("error",
                          PStr "An error occurred: 'NoneType' object has no attribute 'strip'")]))).
Proof.
  intros Hk Hi. split; [|split; [|split]].
  - intros H. unfold App.generate_video_scenes, App.generate_try.
    now rewrite H.
  - intros others H. unfold App.generate_video_scenes, App.generate_try.
    now rewrite H.
  - intros H. unfold Crew.generate_video_scenes, Crew.generate_try,
      Crew.get_openai_client. now rewrite Hk, Hi, H.
  - intros others H. unfold Crew.generate_video_scenes, Crew.generate_try,
      Crew.get_openai_client. now rewrite Hk, Hi, H.
Qed.

(** X16 in a world whose service sends a completion with no choice. *)
Lemma malformed_completion_is_reported_witness :
  App.generate_video_scenes choiceless_world (PStr "sea")
  = Ret (PDict [("status", PStr "error");
                ("message", PStr "list index out of range")])
  /\ Crew.generate_video_scenes choiceless_world "sea"
     = Ret (Json.dumps None
              (PDict [("error",
                       PStr "An error occurred: list index out of range")])).
Proof.
  destruct (malformed_completion_is_reported choiceless_world (PStr "sea") "sea"
              eq_refl eq_refl) as (Ha & _ & Hc & _).
  split; [exact (Ha eq_refl) | exact (Hc eq_refl)].
Defined.

(** X17: a reply none of whose lines starts with "scene" is no error: the
    generation routine returns the success dict with an empty list of
    scenes, and the handler answers 200 with it. *)
Theorem reply_without_header_is_an_empty_success
        (w : world) (d : dict) (topic : pyval) (content : string)
        (others : list (option string)) :
  dict_lookup d "topic" = Some topic ->
  truthy topic = true ->
  chat_create w (App.request_for topic)
  = Ret (Completion (Some content :: others)) ->
  Forall (fun raw => startswith (lower (strip raw)) "scene" = false)
    (split nl content) ->
  App.generate_video_scenes w topic
  = Ret (PDict [("status", PStr "success");
                ("topic", topic);
                ("scenes", PList [])])
  /\ App.execute_crewai w (Ret (PDict d))
     = Ret (PDict [("status", PStr "success");
                   ("topic", topic);
                   ("scenes", PList [])], 200).
Proof.
  intros Hl Ht Hc Hn.
  assert (P : App.parse_scenes content = Ret []).
  { rewrite parse_scenes_refines. unfold Spec.parse, normal_lines.
    now rewrite (proj2 (blocks_nil _) (proj2 (normal_non_header _) Hn)). }
  assert (G : App.generate_try w topic = Ret (App.success_result topic [])).
  { unfold App.generate_try. rewrite Hc.
    cbn [bind choices first_item content_strip].
    change (App.parse_lines (split nl (strip content)))
      with (App.parse_scenes content).
    now rewrite P. }
  split.
  - unfold App.generate_video_scenes. now rewrite G.
  - destruct (handler_with_topic w d topic Hl Ht)
      as [(e & He & _) | (scenes & Hok & _ & Hr)].
    + rewrite G in He. discriminate He.
    + rewrite G in Hok. injection Hok as Hs.
      destruct scenes; [exact Hr | discriminate Hs].
Qed.

(** X17 in a world that replies with a numbered list. *)
Lemma reply_without_header_is_an_empty_success_witness :
  App.execute_crewai (replying_world numbered_reply)
    (Ret (PDict [("topic", PStr "harbour")]))
  = Ret (PDict [("status", PStr "success");
                ("topic", PStr "harbour");
                ("scenes", PList [])], 200).
Proof.
  refine (proj2 (reply_without_header_is_an_empty_success
                   (replying_world numbered_reply)
                   [("topic", PStr "harbour")] (PStr "harbour")
                   numbered_reply [] eq_refl eq_refl eq_refl _)).
  apply Forall_forall. intros raw Hin. vm_compute in Hin.
  destruct Hin as [<- | [<- | []]]; vm_compute; reflexivity.
Defined.

(** X18: a line is a header as soon as it starts with "scene", whatever
    follows on it: such a line alone gives one record whose number is the
    whole stripped line, with an empty description and no element, so that
    text after the word on a header line is kept in the number only. *)
Theorem header_is_any_line_starting_with_scene (word rest : string) :
  startswith (lower (strip word)) "scene" = true ->
  startswith (lower (strip (word ++ rest))) "scene" = true
  /\ App.parse_lines [(word ++ rest)%string]
     = Ret [[("number", PStr (strip (word ++ rest)));
             ("description", PStr EmptyString);
             ("elements", PList [])]].
Proof.
  intros H. pose proof (header_goes_on word rest H) as H'.
  split; [exact H'|]. exact (parse_colon_free_block _ [] H' (Forall_nil _)).
Qed.

(** X18 at the lines "SCENERY of the Alps" and "Scene 1: Sunrise". *)
Lemma header_is_any_line_starting_with_scene_witness :
  App.parse_lines ["SCENERY of the Alps"]
  = Ret [[("number", PStr "SCENERY of the Alps");
          ("description", PStr EmptyString);
          ("elements", PList [])]]
  /\ App.parse_lines ["Scene 1: Sunrise"]
     = Ret [[("number", PStr "Scene 1: Sunrise");
             ("description", PStr EmptyString);
             ("elements", PList [])]].
Proof.
  split.
  - exact (proj2 (header_is_any_line_starting_with_scene
                    "SCENE" "RY of the Alps" eq_refl)).
  - exact (proj2 (header_is_any_line_starting_with_scene
                    "Scene" " 1: Sunrise" eq_refl)).
Defined.
